(** * TaskManagementAPI: tokens, login throttle, password reset and cache

    A shallow embedding of the authentication and ephemeral-store code of
    the service:

    - [app/utils/cache.py]: the in-memory store [MockRedis] and the cache
      helpers [cache_data], [get_cached_data], [clear_cache],
      [clear_cache_pattern];
    - [app/utils/security.py]: token creation, the login-attempt counter
      and [get_current_user];
    - [app/api/v1/endpoints/auth.py]: [register], [login],
      [request_password_reset], [reset_password], [refresh_token];
    - [app/api/v1/endpoints/notifications.py]: [get_notifications],
      [mark_notification_read] and [delete_notification];
    - [app/schemas/user.py]: [validate_username].

    Conventions.  A point in time is an integer number of microseconds
    since the epoch (the resolution of Python's [datetime]); a handler
    reads the clock once, so every operation takes the current time [now]
    as an argument.  Python exceptions are values of [exn]; a computation
    that may raise returns a [result] next to the state it leaves behind,
    because a raised exception does not undo earlier writes to the store.
    The libraries the code calls (python-jose, passlib, json, fnmatch) are
    interfaces: type classes whose laws are the documented behaviour the
    code relies on, with small executable instances used to run examples.
    The store is [MockRedis], the implementation the repository contains.
    Logging calls and the e-mail background tasks do not touch the
    database or the store and are left out. *)

From Stdlib Require Import ZArith String Ascii List Lia Bool.
From Stdlib Require Import DecimalString DecimalZ DecimalPos.
From stdpp Require Import gmap strings list.

Local Open Scope string_scope.
Local Open Scope Z_scope.

(** ** Python values: exceptions, truthiness, [str] and [int] *)

Inductive exn : Type :=
| KeyError (key : string)
| ValueError
| TypeError
| JWTError
| ExpiredSignatureError
| JWTClaimsError
| HTTPException (status_code : Z) (detail : string).

Inductive result (A : Type) : Type :=
| Ok (a : A)
| Raise (e : exn).

Arguments Ok {A} a.
Arguments Raise {A} e.

(** [except JWTError] also catches the two subclasses python-jose raises. *)
Definition is_JWTError (e : exn) : bool :=
  match e with
  | JWTError | ExpiredSignatureError | JWTClaimsError => true
  | _ => false
  end.

(** Truth value of a Python [str]: only the empty string is falsy. *)
Definition truthy_str (s : string) : bool :=
  match s with
  | EmptyString => false
  | String _ _ => true
  end.

(** Truth value of an [Optional[str]], as in [if attempts and ...]. *)
Definition truthy_opt (o : option string) : bool :=
  match o with
  | Some s => truthy_str s
  | None => false
  end.

(** [str(n)] for an integer: canonical decimal, ["-"] for negatives. *)
Definition str (n : Z) : string := NilZero.string_of_int (Z.to_int n).

(** [int(s)] for a string holding a decimal numeral (an optional ["-"]
    and at least one ASCII digit), which is what [str] writes and all the
    store ever holds under a counter key; [None] stands for [ValueError]. *)
Definition int (s : string) : option Z :=
  option_map Z.of_int (NilZero.int_of_string s).

(** ** Time *)

Definition usec : Z := 1000000.

(** [timedelta(seconds=s)], [timedelta(minutes=m)], [timedelta(days=d)]. *)
Definition seconds (s : Z) : Z := s * usec.
Definition minutes (m : Z) : Z := seconds (m * 60).
Definition days (d : Z) : Z := seconds (d * 86400).

(** [timegm(t.utctimetuple())]: whole seconds since the epoch. *)
Definition timegm (t : Z) : Z := t / usec.

(** [int(x)] for a float number of seconds [x = d / 10^6]: truncation
    towards zero. *)
Definition int_seconds (d : Z) : Z := Z.quot d usec.

(** ** Settings ([app/core/config.py]) *)

Module settings.
Definition SECRET_KEY : string := "your-secret-key".
Definition ACCESS_TOKEN_EXPIRE_MINUTES : Z := 30.
Definition REFRESH_TOKEN_EXPIRE_DAYS : Z := 7.
Definition MAX_LOGIN_ATTEMPTS : Z := 5.
Definition LOCKOUT_TIME : Z := 15.
Definition CACHE_TTL : Z := 300.
End settings.

(** ** A state-and-exception monad

    [M S A] is a Python function body run against a mutable object of
    type [S]: it ends with a value or an exception, and with the state as
    it was when it ended. *)

Definition M (S A : Type) : Type := S -> result A * S.

Definition ret {S A} (a : A) : M S A := fun s => (Ok a, s).
Definition raise {S A} (e : exn) : M S A := fun s => (Raise e, s).
Definition bind {S A B} (m : M S A) (k : A -> M S B) : M S B :=
  fun s => match m s with
           | (Ok a, s') => k a s'
           | (Raise e, s') => (Raise e, s')
           end.

Notation "'let*' x ':=' m 'in' k" := (bind m (fun x => k))
  (at level 10, x pattern, m at level 100, k at level 200).
Notation "m >> k" := (bind m (fun _ => k))
  (at level 62, right associativity).

(** [try: m except Exception: h] *)
Definition try_except {S A} (m : M S A) (h : exn -> M S A) : M S A :=
  fun s => match m s with
           | (Ok a, s') => (Ok a, s')
           | (Raise e, s') => h e s'
           end.

(** [for x in xs: body(x)] *)
Fixpoint for_each {S A} (xs : list A) (body : A -> M S unit) : M S unit :=
  match xs with
  | [] => ret tt
  | x :: rest => body x >> for_each rest body
  end.

(** ** Library interfaces

    [fnmatch.fnmatch(name, pat)] on a POSIX host (no case folding).  The
    only law the code relies on: a pattern without the metacharacters
    [*], [?] and [[] matches exactly itself. *)

Definition glob_meta (c : ascii) : bool :=
  (Ascii.eqb c "*" || Ascii.eqb c "?" || Ascii.eqb c "[")%bool.

Fixpoint glob_free (pat : string) : bool :=
  match pat with
  | EmptyString => true
  | String c pat' => negb (glob_meta c) && glob_free pat'
  end.

Class Fnmatch : Type := {
  fnmatch : string -> string -> bool;
  fnmatch_literal : forall name pat : string,
    glob_free pat = true -> fnmatch name pat = bool_decide (name = pat)
}.

(** ** The in-memory store: [MockRedis] ([app/utils/cache.py]) *)

Record MockRedis : Type := mkRedis {
  _data : gmap string string;
  _expires : gmap string Z
}.

Module MockRedis.

(** [__init__] *)
Definition init : MockRedis := mkRedis ∅ ∅.

(** [del self._data[key]; del self._expires[key]], the statement pair of
    [get] and of the loop in [_clean_expired]; a [del] of a missing key
    raises [KeyError]. *)
Definition del_both (key : string) : M MockRedis unit :=
  fun r =>
    match _data r !! key with
    | Some _ =>
        match _expires r !! key with
        | Some _ =>
            (Ok tt, mkRedis (base.delete key (_data r)) (base.delete key (_expires r)))
        | None => (Raise (KeyError key), mkRedis (base.delete key (_data r)) (_expires r))
        end
    | None => (Raise (KeyError key), r)
    end.

(** [get(key)]: a key whose expiry lies before [now] is removed from
    both dictionaries; [del self._data[key]] raises [KeyError] when the
    key is missing there. *)
Definition get (now : Z) (key : string) : M MockRedis (option string) :=
  fun r =>
    match _expires r !! key with
    | Some t =>
        if t <? now then (del_both key >> ret None) r
        else (Ok (_data r !! key), r)
    | None => (Ok (_data r !! key), r)
    end.

(** [expire(key, time)], [time] in seconds. *)
Definition expire (now : Z) (key : string) (time : Z) : M MockRedis bool :=
  fun r =>
    match _data r !! key with
    | Some _ => (Ok true, mkRedis (_data r) (<[key := now + seconds time]> (_expires r)))
    | None => (Ok false, r)
    end.

(** [set(key, value, ex)]; [if ex:] skips both [None] and [0]. *)
Definition set (now : Z) (key value : string) (ex : option Z) : M MockRedis bool :=
  fun r =>
    let r1 := mkRedis (<[key := value]> (_data r)) (_expires r) in
    match ex with
    | Some t => if t =? 0 then (Ok true, r1)
                else (expire now key t >> ret true) r1
    | None => (Ok true, r1)
    end.

(** [setex(key, time, value)] *)
Definition setex (now : Z) (key : string) (time : Z) (value : string)
  : M MockRedis bool :=
  fun r =>
    (expire now key time >> ret true)
      (mkRedis (<[key := value]> (_data r)) (_expires r)).

(** [delete(key)] *)
Definition delete (key : string) : M MockRedis bool :=
  fun r =>
    match _data r !! key with
    | Some _ => (Ok true, mkRedis (base.delete key (_data r)) (base.delete key (_expires r)))
    | None => (Ok false, r)
    end.

(** [incr(key)]: reads [_data] directly; [int] of a non-numeral raises
    [ValueError]. *)
Definition incr (key : string) : M MockRedis Z :=
  fun r =>
    match _data r !! key with
    | Some s =>
        match int s with
        | Some current =>
            (Ok (current + 1), mkRedis (<[key := str (current + 1)]> (_data r)) (_expires r))
        | None => (Raise ValueError, r)
        end
    | None => (Ok 1, mkRedis (<[key := str 1]> (_data r)) (_expires r))
    end.

(** [ttl(key)] *)
Definition ttl (now : Z) (key : string) : M MockRedis Z :=
  fun r =>
    match _data r !! key with
    | None => (Ok (-2), r)
    | Some _ =>
        match _expires r !! key with
        | None => (Ok (-1), r)
        | Some t => (Ok (Z.max 1 (int_seconds (t - now))), r)
        end
    end.

(** [flushall()] *)
Definition flushall : M MockRedis bool :=
  fun _ => (Ok true, mkRedis ∅ ∅).

(** [_clean_expired()].  The expired keys are visited in the map's
    enumeration order; Python visits them in insertion order, which
    only changes which key a [KeyError] would name. *)
Definition _clean_expired (now : Z) : M MockRedis unit :=
  fun r =>
    let expired :=
      (map_to_list (filter (fun kt => kt.2 < now) (_expires r))).*1 in
    for_each expired del_both r.

Section keys.
Context `{Fnmatch}.

(** [keys(pattern)] *)
Definition keys (now : Z) (pattern : string) : M MockRedis (list string) :=
  _clean_expired now >>
  (fun r =>
     (Ok (List.filter (fun k => fnmatch k pattern) (map_to_list (_data r)).*1), r)).
End keys.

End MockRedis.

(** ** Python data and the [json] module

    [pyval] is the data handed to [json.dumps] and returned by
    [json.loads]: [None], booleans, integers, strings, [datetime] objects
    (which [DateTimeEncoder] writes in ISO format), lists and dicts.  A
    dict is its list of items; [dict_get] reads the first item under a
    key. *)

#[local] Set Warnings "-register-all".
Inductive pyval : Type :=
| PNone
| PBool (b : bool)
| PInt (n : Z)
| PStr (s : string)
| PDatetime (t : Z)
| PList (items : list pyval)
| PDict (items : list (string * pyval)).

Definition truthy (v : pyval) : bool :=
  match v with
  | PNone => false
  | PBool b => b
  | PInt n => negb (n =? 0)
  | PStr s => truthy_str s
  | PDatetime _ => true
  | PList items => match items with [] => false | _ => true end
  | PDict items => match items with [] => false | _ => true end
  end.

Fixpoint dict_get (key : string) (items : list (string * pyval)) : option pyval :=
  match items with
  | [] => None
  | (k, v) :: rest => if String.eqb k key then Some v else dict_get key rest
  end.

(** [json.dumps(data, cls=DateTimeEncoder)] and [json.loads(text)];
    [None] from [json_loads] stands for [json.JSONDecodeError].  No law
    is assumed: every theorem below holds for any pair of functions. *)
Class JSONCodec : Type := {
  json_dumps : pyval -> string;
  json_loads : string -> option pyval
}.

(** ** python-jose

    A claim set is a dict from claim names to values.  [jwt_encode]
    signs a claim set with a key; [jws_verify] checks the signature of a
    token against a key and returns the signed claims;
    [jwt_get_unverified_claims] reads the claims without checking the
    signature.  The two laws: a token verifies under the key that signed
    it, and verification never yields other claims than those the token
    carries. *)

Inductive claim : Type :=
| CStr (s : string)
| CInt (n : Z)
| CBool (b : bool).

Definition truthy_claim (c : option claim) : bool :=
  match c with
  | Some (CStr s) => truthy_str s
  | Some (CInt n) => negb (n =? 0)
  | Some (CBool b) => b
  | None => false
  end.

Class JOSE : Type := {
  jwt : Type;
  jwt_encode : gmap string claim -> string -> jwt;
  jws_verify : jwt -> string -> option (gmap string claim);
  jwt_get_unverified_claims : jwt -> option (gmap string claim);
  jws_verify_encode : forall (claims : gmap string claim) (key : string),
    jws_verify (jwt_encode claims key) key = Some claims;
  jws_verify_claims : forall (token : jwt) (key : string) (claims : gmap string claim),
    jws_verify token key = Some claims ->
    jwt_get_unverified_claims token = Some claims
}.

(** [int(claims["exp"])] inside python-jose. *)
Definition claim_int (c : claim) : option Z :=
  match c with
  | CInt n => Some n
  | CBool b => Some (if b then 1 else 0)
  | CStr s => int s
  end.

(** [jwt.decode(token, key, algorithms=[...])] at time [now]: signature
    first, then the [exp] claim (an expiry strictly before the current
    whole second is rejected) and the [sub] claim (a string when
    present).  The tokens of this service carry no other registered
    claim. *)
Definition jwt_decode `{JOSE} (now : Z) (token : jwt) (key : string)
  : result (gmap string claim) :=
  match jws_verify token key with
  | None => Raise JWTError
  | Some claims =>
      let exp_ok :=
        match claims !! "exp" with
        | None => Ok tt
        | Some c =>
            match claim_int c with
            | None => Raise JWTClaimsError
            | Some exp => if exp <? timegm now then Raise ExpiredSignatureError else Ok tt
            end
        end in
      match exp_ok with
      | Raise e => Raise e
      | Ok _ =>
          match claims !! "sub" with
          | Some (CInt _) | Some (CBool _) => Raise JWTClaimsError
          | _ => Ok claims
          end
      end
  end.

(** ** passlib

    [pwd_context.hash(password)] draws a fresh salt, an explicit argument
    here; [pwd_context.verify(plain, hashed)]. *)
Class CryptContext : Type := {
  pwd_hash : string -> string -> string;
  pwd_verify : string -> string -> bool
}.

(** ** The database ([app/models]) *)

Module User.
Record t : Type := mk {
  id : Z;
  username : string;
  email : string;
  hashed_password : string;
  is_active : bool;
  last_login : option Z
}.
End User.

Module Notification.
Record t : Type := mk {
  id : Z;
  user_id : Z;
  message : string;
  is_read : bool;
  created_at : Z
}.
End Notification.

Record Session : Type := mkSession {
  users : list User.t;
  notifications : list Notification.t
}.

(** [db.query(User).filter(User.username == username).first()] *)
Definition user_by_username (db : Session) (username : string) : option User.t :=
  List.find (fun u => String.eqb (User.username u) username) (users db).

Definition user_by_email (db : Session) (email : string) : option User.t :=
  List.find (fun u => String.eqb (User.email u) email) (users db).

Definition user_by_id (db : Session) (id : Z) : option User.t :=
  List.find (fun u => User.id u =? id) (users db).

(** Writing back a modified row at [db.commit()]: the row with the same
    primary key is replaced. *)
Definition commit_user (u' : User.t) (db : Session) : Session :=
  mkSession
    (map (fun u => if User.id u =? User.id u' then u' else u) (users db))
    (notifications db).

Definition commit_notification (n' : Notification.t) (db : Session) : Session :=
  mkSession
    (users db)
    (map (fun n => if Notification.id n =? Notification.id n' then n' else n)
         (notifications db)).

(** The state a request handler runs against: the database session and
    the store returned by [get_redis_client()]. *)
Record App : Type := mkApp {
  db : Session;
  redis : MockRedis
}.

(** Run a store operation inside a handler. *)
Definition on_redis {A} (m : M MockRedis A) : M App A :=
  fun a => let (res, r') := m (redis a) in (res, mkApp (db a) r').

Definition get_db : M App Session := fun a => (Ok (db a), a).
Definition set_db (d : Session) : M App unit := fun a => (Ok tt, mkApp d (redis a)).


(** ** HTTP errors raised by the handlers *)

Definition HTTP_400_BAD_REQUEST : Z := 400.
Definition HTTP_401_UNAUTHORIZED : Z := 401.
Definition HTTP_404_NOT_FOUND : Z := 404.
Definition HTTP_429_TOO_MANY_REQUESTS : Z := 429.

Module Token.
Record t `{JOSE} : Type := mk {
  access_token : jwt;
  refresh_token : jwt;
  token_type : string
}.
End Token.

Section Service.

Context `{Fnmatch} `{JSONCodec} `{JOSE} `{CryptContext}.

(** [settings.SECRET_KEY], read from the environment. *)
Variable SECRET_KEY : string.

(** *** [app/utils/cache.py]: cache helpers *)

Definition cache_data (now : Z) (key : string) (data : pyval) (ttl : option Z)
  : M MockRedis unit :=
  try_except
    (let ttl := match ttl with Some t => t | None => settings.CACHE_TTL end in
     MockRedis.setex now key ttl (json_dumps data) >> ret tt)
    (fun _ => ret tt).

Definition get_cached_data (now : Z) (key : string) : M MockRedis (option pyval) :=
  try_except
    (let* data := MockRedis.get now key in
     match data with
     | Some text =>
         if truthy_str text then
           match json_loads text with
           | Some v => ret (Some v)
           | None => raise ValueError
           end
         else ret None
     | None => ret None
     end)
    (fun _ => ret None).

Definition clear_cache (now : Z) (key_pattern : option string) : M MockRedis unit :=
  match key_pattern with
  | Some pattern =>
      if truthy_str pattern then
        let* keys := MockRedis.keys now pattern in
        for_each keys (fun key => MockRedis.delete key >> ret tt)
      else MockRedis.flushall >> ret tt
  | None => MockRedis.flushall >> ret tt
  end.

(** *** [app/utils/security.py] *)

Definition verify_password (plain_password hashed_password : string) : bool :=
  pwd_verify plain_password hashed_password.

Definition get_password_hash (salt password : string) : string :=
  pwd_hash salt password.

(** [create_access_token(data, expires_delta)]; [if expires_delta:] is
    false for [None] and for a zero [timedelta].  python-jose writes the
    [datetime] under ["exp"] as whole seconds. *)
Definition create_access_token (now : Z) (data : gmap string claim)
    (expires_delta : option Z) : jwt :=
  let to_encode := data in
  let expire :=
    match expires_delta with
    | Some delta =>
        if delta =? 0 then now + minutes settings.ACCESS_TOKEN_EXPIRE_MINUTES
        else now + delta
    | None => now + minutes settings.ACCESS_TOKEN_EXPIRE_MINUTES
    end in
  let to_encode := <["exp" := CInt (timegm expire)]> to_encode in
  jwt_encode to_encode SECRET_KEY.

Definition create_refresh_token (now : Z) (data : gmap string claim) : jwt :=
  let to_encode := data in
  let expire := now + days settings.REFRESH_TOKEN_EXPIRE_DAYS in
  let to_encode := <["refresh" := CBool true]> (<["exp" := CInt (timegm expire)]> to_encode) in
  jwt_encode to_encode SECRET_KEY.

Definition login_attempts_key (username : string) : string :=
  "login_attempts:" +:+ username.

Definition check_login_attempts (now : Z) (username : string) : M MockRedis bool :=
  let key := login_attempts_key username in
  let* attempts := MockRedis.get now key in
  match attempts with
  | Some a =>
      if truthy_str a then
        match int a with
        | Some n => if settings.MAX_LOGIN_ATTEMPTS <=? n then ret false else ret true
        | None => raise ValueError
        end
      else ret true
  | None => ret true
  end.

Definition increment_login_attempts (now : Z) (username : string) : M MockRedis unit :=
  let key := login_attempts_key username in
  MockRedis.incr key >>
  MockRedis.expire now key (settings.LOCKOUT_TIME * 60) >>
  ret tt.

Definition reset_login_attempts (username : string) : M MockRedis unit :=
  let key := login_attempts_key username in
  MockRedis.delete key >> ret tt.

Definition credentials_exception : exn :=
  HTTPException HTTP_401_UNAUTHORIZED "Не удалось проверить учетные данные".

(** The [try] block of [get_current_user]: the subject of a token. *)
Definition token_subject (now : Z) (token : jwt) : result (option claim) :=
  match jwt_decode now token SECRET_KEY with
  | Ok payload =>
      match payload !! "sub" with
      | Some username => Ok (Some username)
      | None => Raise credentials_exception
      end
  | Raise e => if is_JWTError e then Raise credentials_exception else Raise e
  end.

(** [get_current_user(token, db)].  A subject that is not a string
    matches no [User.username]. *)
Definition get_current_user (now : Z) (token : jwt) (db : Session) : result User.t :=
  match token_subject now token with
  | Ok (Some (CStr username)) =>
      match user_by_username db username with
      | Some user => Ok user
      | None => Raise credentials_exception
      end
  | Ok _ => Raise credentials_exception
  | Raise e => Raise e
  end.

(** *** [app/api/v1/endpoints/auth.py] *)

Definition bearer_pair (now : Z) (username : string) : Token.t :=
  let access_token_expires := minutes settings.ACCESS_TOKEN_EXPIRE_MINUTES in
  let access_token :=
    create_access_token now {["sub" := CStr username]} (Some access_token_expires) in
  let refresh_token := create_refresh_token now {["sub" := CStr username]} in
  Token.mk _ access_token refresh_token "bearer".

(** [login(form_data, db, redis_client)] *)
Definition login (now : Z) (username password : string) : M App Token.t :=
  let* allowed := on_redis (check_login_attempts now username) in
  if negb allowed then
    raise (HTTPException HTTP_429_TOO_MANY_REQUESTS
             "Too many login attempts. Please try again later.")
  else
    let* db := get_db in
    let user := user_by_username db username in
    match user with
    | None =>
        on_redis (increment_login_attempts now username) >>
        raise (HTTPException HTTP_401_UNAUTHORIZED "Incorrect username or password")
    | Some user =>
        if negb (verify_password password (User.hashed_password user)) then
          on_redis (increment_login_attempts now username) >>
          raise (HTTPException HTTP_401_UNAUTHORIZED "Incorrect username or password")
        else if negb (User.is_active user) then
          raise (HTTPException HTTP_400_BAD_REQUEST "Inactive user")
        else
          on_redis (reset_login_attempts username) >>
          let tokens := bearer_pair now (User.username user) in
          let user' :=
            User.mk (User.id user) (User.username user) (User.email user)
                    (User.hashed_password user) (User.is_active user) (Some now) in
          set_db (commit_user user' db) >>
          ret tokens
    end.

Definition reset_token_key (token : string) : string := "reset_token:" +:+ token.

(** [request_password_reset(request, ...)]; [uuid] is the value of
    [str(uuid.uuid4())].  The token leaves by e-mail only. *)
Definition request_password_reset (now : Z) (uuid email : string) : M App string :=
  let* db := get_db in
  match user_by_email db email with
  | None => raise (HTTPException HTTP_404_NOT_FOUND "User not found")
  | Some user =>
      let reset_token := uuid in
      on_redis (MockRedis.setex now (reset_token_key reset_token) 3600
                  (json_dumps (PDict [("user_id", PInt (User.id user))]))) >>
      ret "Password reset email sent"
  end.

(** [token_data["user_id"]] on the value [json.loads] returned: a
    [KeyError] on a dict without the key, [TypeError] when the value is
    not a dict. *)
Definition subscript (v : pyval) (key : string) : result pyval :=
  match v with
  | PDict items =>
      match dict_get key items with
      | Some x => Ok x
      | None => Raise (KeyError key)
      end
  | _ => Raise TypeError
  end.

(** [reset_password(token, request, ...)]; [salt] is the salt drawn by
    [get_password_hash].  A [user_id] that is not an integer matches no
    row. *)
Definition reset_password (now : Z) (salt token new_password : string) : M App string :=
  let* token_data := on_redis (MockRedis.get now (reset_token_key token)) in
  if negb (truthy_opt token_data) then
    raise (HTTPException HTTP_400_BAD_REQUEST "Invalid or expired token")
  else
    match token_data with
    | None => raise (HTTPException HTTP_400_BAD_REQUEST "Invalid or expired token")
    | Some text =>
        match json_loads text with
        | None => raise (HTTPException HTTP_400_BAD_REQUEST "Invalid token format")
        | Some token_data =>
            match subscript token_data "user_id" with
            | Raise e => raise e
            | Ok uid =>
                let* db := get_db in
                let user := match uid with
                            | PInt id => user_by_id db id
                            | _ => None
                            end in
                match user with
                | None => raise (HTTPException HTTP_404_NOT_FOUND "User not found")
                | Some user =>
                    let user' :=
                      User.mk (User.id user) (User.username user) (User.email user)
                              (get_password_hash salt new_password)
                              (User.is_active user) (User.last_login user) in
                    set_db (commit_user user' db) >>
                    on_redis (MockRedis.delete (reset_token_key token)) >>
                    ret "Password reset successful"
                end
            end
        end
    end.

(** [refresh_token(request, db)]; [request] is the value under
    ["refresh_token"] in the body, [None] when the key is missing.  The
    [HTTPException]s raised inside the [try] are not [JWTError]s and pass
    through its [except] clause. *)
Definition refresh_token (now : Z) (request : option jwt) (db : Session)
  : result Token.t :=
  match request with
  | None => Raise (KeyError "refresh_token")
  | Some token =>
      match jwt_decode now token SECRET_KEY with
      | Raise e =>
          if is_JWTError e then
            Raise (HTTPException HTTP_401_UNAUTHORIZED "Could not validate credentials")
          else Raise e
      | Ok payload =>
          match payload !! "sub" with
          | None =>
              Raise (HTTPException HTTP_401_UNAUTHORIZED "Could not validate credentials")
          | Some username =>
              if negb (truthy_claim (payload !! "refresh")) then
                Raise (HTTPException HTTP_401_UNAUTHORIZED "Invalid refresh token")
              else
                let user := match username with
                            | CStr name => user_by_username db name
                            | _ => None
                            end in
                match user with
                | None => Raise (HTTPException HTTP_401_UNAUTHORIZED "User not found")
                | Some user => Ok (bearer_pair now (User.username user))
                end
          end
      end
  end.

(** *** [app/api/v1/endpoints/notifications.py] *)

Definition notifications_key (user_id : Z) : string :=
  "user_notifications:" +:+ str user_id.

(** [NotificationResponse.model_validate(n).model_dump()]: the fields in
    declaration order, the base class first. *)
Definition model_dump (n : Notification.t) : pyval :=
  PDict [("message", PStr (Notification.message n));
         ("id", PInt (Notification.id n));
         ("is_read", PBool (Notification.is_read n));
         ("created_at", PDatetime (Notification.created_at n));
         ("user_id", PInt (Notification.user_id n))].

(** [.order_by(Notification.created_at.desc())]: an insertion sort, rows
    with equal timestamps in table order. *)
Fixpoint insert_desc (n : Notification.t) (sorted : list Notification.t)
  : list Notification.t :=
  match sorted with
  | [] => [n]
  | m :: rest =>
      if Notification.created_at m <? Notification.created_at n
      then n :: m :: rest
      else m :: insert_desc n rest
  end.

Definition order_by_created_at_desc (rows : list Notification.t) : list Notification.t :=
  foldr insert_desc [] rows.

(** The query of [get_notifications]. *)
Definition notifications_of (db : Session) (user_id : Z) : list Notification.t :=
  order_by_created_at_desc
    (List.filter (fun n => Notification.user_id n =? user_id) (notifications db)).

(** [get_notifications(current_user, db)]: the cached value on a hit,
    the rows of the database on a miss. *)
Definition get_notifications (now : Z) (current_user : User.t) : M App pyval :=
  let cache_key := notifications_key (User.id current_user) in
  let* cached_notifications := on_redis (get_cached_data now cache_key) in
  let from_db :=
    let* db := get_db in
    let result := map model_dump (notifications_of db (User.id current_user)) in
    on_redis (cache_data now cache_key (PList result) (Some settings.CACHE_TTL)) >>
    ret (PList result) in
  match cached_notifications with
  | Some snapshot => if truthy snapshot then ret snapshot else from_db
  | None => from_db
  end.

(** [mark_notification_read(notification_id, current_user, db)] *)
Definition mark_notification_read (now : Z) (notification_id : Z)
    (current_user : User.t) : M App string :=
  let* db := get_db in
  let notification :=
    List.find (fun n => (Notification.id n =? notification_id)
                        && (Notification.user_id n =? User.id current_user))%bool
              (notifications db) in
  match notification with
  | None => raise (HTTPException HTTP_404_NOT_FOUND "Notification not found")
  | Some notification =>
      if Notification.is_read notification then
        raise (HTTPException HTTP_400_BAD_REQUEST "Notification already marked as read")
      else
        let notification' :=
          Notification.mk (Notification.id notification) (Notification.user_id notification)
                          (Notification.message notification) true
                          (Notification.created_at notification) in
        set_db (commit_notification notification' db) >>
        on_redis (clear_cache now (Some (notifications_key (User.id current_user)))) >>
        ret "Notification marked as read"
  end.

End Service.

(** ** More of the same files *)

(** [validate_username] of [app/schemas/user.py]:
    [re.match(r'^[a-zA-Z0-9_-]+$', v)].  [$] matches at the end of the
    string and also just before a newline that ends it. *)
Definition username_char (c : ascii) : bool :=
  let n := nat_of_ascii c in
  ((97 <=? n)%nat && (n <=? 122)%nat)
  || ((65 <=? n)%nat && (n <=? 90)%nat)
  || ((48 <=? n)%nat && (n <=? 57)%nat)
  || Ascii.eqb c "_" || Ascii.eqb c "-".

Fixpoint all_chars (p : ascii -> bool) (s : string) : bool :=
  match s with
  | EmptyString => true
  | String c s' => p c && all_chars p s'
  end.

Definition newline : ascii := ascii_of_nat 10.

(** The string without the newline that ends it, if there is one. *)
Fixpoint before_final_newline (s : string) : string :=
  match s with
  | EmptyString => EmptyString
  | String c EmptyString => if Ascii.eqb c newline then EmptyString else s
  | String c s' => String c (before_final_newline s')
  end.

Definition validate_username (v : string) : result string :=
  let body := before_final_newline v in
  if truthy_str body && all_chars username_char body then Ok v else Raise ValueError.

Section MoreService.

Context `{Fnmatch} `{JSONCodec} `{CryptContext}.

(** [redis_client.delete] called with the list of keys unpacked into its
    arguments, against [MockRedis.delete(self, key)]: a call with any
    number of keys other than one is a [TypeError]. *)
Definition delete_star (keys : list string) : M MockRedis bool :=
  match keys with
  | [key] => MockRedis.delete key
  | _ => raise TypeError
  end.

(** [clear_cache_pattern(pattern)] of [app/utils/cache.py] *)
Definition clear_cache_pattern (now : Z) (pattern : string) : M MockRedis unit :=
  try_except
    (let* keys := MockRedis.keys now pattern in
     match keys with
     | [] => ret tt
     | _ :: _ => delete_star keys >> ret tt
     end)
    (fun _ => ret tt).

(** [register(user_in, background_tasks, db)] of [auth.py]; [new_id] is
    the primary key the database assigns at [db.commit()], [salt] the
    salt drawn by [get_password_hash]. *)
Definition register (new_id : Z) (salt username email password : string)
  : M App User.t :=
  let* db := get_db in
  let existing_user :=
    List.find (fun u => String.eqb (User.username u) username
                        || String.eqb (User.email u) email) (users db) in
  match existing_user with
  | Some _ =>
      raise (HTTPException HTTP_400_BAD_REQUEST "Username or email already registered")
  | None =>
      let hashed_password := get_password_hash salt password in
      let user := User.mk new_id username email hashed_password true None in
      set_db (mkSession (users db ++ [user]) (notifications db)) >>
      ret user
  end.

(** [delete_notification(notification_id, current_user, db)] of
    [notifications.py]; [db.delete] removes the row with that primary
    key. *)
Definition delete_notification (now : Z) (notification_id : Z)
    (current_user : User.t) : M App string :=
  let* db := get_db in
  let notification :=
    List.find (fun n => (Notification.id n =? notification_id)
                        && (Notification.user_id n =? User.id current_user))
              (notifications db) in
  match notification with
  | None => raise (HTTPException HTTP_404_NOT_FOUND "Notification not found")
  | Some notification =>
      set_db (mkSession
                (users db)
                (List.filter
                   (fun n => negb (Notification.id n =? Notification.id notification))
                   (notifications db))) >>
      on_redis (clear_cache now (Some (notifications_key (User.id current_user)))) >>
      ret "Notification deleted successfully"
  end.

End MoreService.

(** ** Executable instances of the library interfaces

    Small stand-ins for the libraries, used to run the handlers on
    concrete inputs.  The theorems below are stated for every instance. *)

Module Reference.

(** Glob matching with [*] and [?] (bracket classes are not covered). *)
Fixpoint glob (pat name : string) : bool :=
  match pat with
  | EmptyString => match name with EmptyString => true | _ => false end
  | String c pat' =>
      if Ascii.eqb c "*" then
        (fix star (name : string) : bool :=
           glob pat' name
           || match name with
              | EmptyString => false
              | String _ name' => star name'
              end) name
      else
        match name with
        | EmptyString => false
        | String d name' => (Ascii.eqb c "?" || Ascii.eqb c d) && glob pat' name'
        end
  end.

(** A signed token is the key and the claims it was built from; anything
    else a client may send is [Garbage]. *)
Inductive token : Type :=
| Signed (key : string) (claims : gmap string claim)
| Garbage (text : string).

Definition verify (t : token) (key : string) : option (gmap string claim) :=
  match t with
  | Signed k claims => if String.eqb k key then Some claims else None
  | Garbage _ => None
  end.

Definition unverified_claims (t : token) : option (gmap string claim) :=
  match t with
  | Signed _ claims => Some claims
  | Garbage _ => None
  end.

(** A salted hash is [salt$password]. *)
Fixpoint after_dollar (s : string) : string :=
  match s with
  | EmptyString => EmptyString
  | String c s' => if Ascii.eqb c "$" then s' else after_dollar s'
  end.

Definition hash (salt password : string) : string := salt +:+ "$" +:+ password.
Definition check (plain hashed : string) : bool := String.eqb (after_dollar hashed) plain.

(** JSON text for [pyval], without string escapes. *)
Definition dq : ascii := ascii_of_nat 34.
Definition quoted (s : string) : string := String dq (s +:+ String dq EmptyString).

Fixpoint dumps (v : pyval) : string :=
  match v with
  | PNone => "null"
  | PBool b => if b then "true" else "false"
  | PInt n => str n
  | PStr s => quoted s
  | PDatetime t => quoted (str t)
  | PList items =>
      "[" +:+
      (fix go (l : list pyval) : string :=
         match l with
         | [] => ""
         | x :: l' => dumps x +:+ match l' with [] => "" | _ => ", " +:+ go l' end
         end) items +:+ "]"
  | PDict items =>
      "{" +:+
      (fix go (l : list (string * pyval)) : string :=
         match l with
         | [] => ""
         | (k, x) :: l' =>
             quoted k +:+ ": " +:+ dumps x +:+
             match l' with [] => "" | _ => ", " +:+ go l' end
         end) items +:+ "}"
  end.

Fixpoint skip_ws (s : string) : string :=
  match s with
  | String c s' => if Ascii.eqb c " " then skip_ws s' else s
  | EmptyString => s
  end.

Fixpoint until_quote (s : string) : option (string * string) :=
  match s with
  | EmptyString => None
  | String c s' =>
      if Ascii.eqb c dq then Some (EmptyString, s')
      else match until_quote s' with
           | Some (body, rest) => Some (String c body, rest)
           | None => None
           end
  end.

Definition is_num_char (c : ascii) : bool :=
  Ascii.eqb c "-" || ((48 <=? nat_of_ascii c)%nat && (nat_of_ascii c <=? 57)%nat).

Fixpoint take_num (s : string) : string * string :=
  match s with
  | EmptyString => (EmptyString, EmptyString)
  | String c s' =>
      if is_num_char c then let (digits, rest) := take_num s' in (String c digits, rest)
      else (EmptyString, s)
  end.

Fixpoint strip_prefix (p s : string) : option string :=
  match p, s with
  | EmptyString, _ => Some s
  | String a p', String b s' => if Ascii.eqb a b then strip_prefix p' s' else None
  | String _ _, EmptyString => None
  end.

Fixpoint parse_items (value : string -> option (pyval * string)) (fuel : nat)
    (s : string) : option (list pyval * string) :=
  match fuel with
  | O => None
  | S fuel' =>
      match value s with
      | None => None
      | Some (v, rest) =>
          match skip_ws rest with
          | String c rest' =>
              if Ascii.eqb c "]" then Some ([v], rest')
              else if Ascii.eqb c "," then
                match parse_items value fuel' rest' with
                | Some (vs, rest'') => Some (v :: vs, rest'')
                | None => None
                end
              else None
          | EmptyString => None
          end
      end
  end.

Fixpoint parse_members (value : string -> option (pyval * string)) (fuel : nat)
    (s : string) : option (list (string * pyval) * string) :=
  match fuel with
  | O => None
  | S fuel' =>
      match skip_ws s with
      | String q s1 =>
          if Ascii.eqb q dq then
            match until_quote s1 with
            | None => None
            | Some (k, s2) =>
                match skip_ws s2 with
                | String colon s3 =>
                    if Ascii.eqb colon ":" then
                      match value s3 with
                      | None => None
                      | Some (v, rest) =>
                          match skip_ws rest with
                          | String c rest' =>
                              if Ascii.eqb c "}" then Some ([(k, v)], rest')
                              else if Ascii.eqb c "," then
                                match parse_members value fuel' rest' with
                                | Some (kvs, rest'') => Some ((k, v) :: kvs, rest'')
                                | None => None
                                end
                              else None
                          | EmptyString => None
                          end
                      end
                    else None
                | EmptyString => None
                end
            end
          else None
      | EmptyString => None
      end
  end.

Fixpoint parse_value (fuel : nat) (s : string) : option (pyval * string) :=
  match fuel with
  | O => None
  | S fuel' =>
      match skip_ws s with
      | EmptyString => None
      | String c rest =>
          if Ascii.eqb c "[" then
            match skip_ws rest with
            | String c' rest' =>
                if Ascii.eqb c' "]" then Some (PList [], rest')
                else match parse_items (parse_value fuel') fuel' rest with
                     | Some (vs, r) => Some (PList vs, r)
                     | None => None
                     end
            | EmptyString => None
            end
          else if Ascii.eqb c "{" then
            match skip_ws rest with
            | String c' rest' =>
                if Ascii.eqb c' "}" then Some (PDict [], rest')
                else match parse_members (parse_value fuel') fuel' rest with
                     | Some (kvs, r) => Some (PDict kvs, r)
                     | None => None
                     end
            | EmptyString => None
            end
          else if Ascii.eqb c dq then
            match until_quote rest with
            | Some (body, r) => Some (PStr body, r)
            | None => None
            end
          else if is_num_char c then
            let (digits, r) := take_num (String c rest) in
            match int digits with
            | Some n => Some (PInt n, r)
            | None => None
            end
          else
            match strip_prefix "null" (String c rest) with
            | Some r => Some (PNone, r)
            | None =>
                match strip_prefix "true" (String c rest) with
                | Some r => Some (PBool true, r)
                | None =>
                    match strip_prefix "false" (String c rest) with
                    | Some r => Some (PBool false, r)
                    | None => None
                    end
                end
            end
      end
  end.

Definition loads (text : string) : option pyval :=
  match parse_value (S (String.length text)) text with
  | Some (v, rest) =>
      match skip_ws rest with
      | EmptyString => Some v
      | String _ _ => None
      end
  | None => None
  end.

End Reference.

(** The reference instances satisfy the interface laws. *)

Lemma glob_literal (pat name : string) :
  glob_free pat = true -> Reference.glob pat name = bool_decide (name = pat).
Proof.
  revert name. induction pat as [|c pat IH]; intros name Hfree.
  - destruct name; reflexivity.
  - cbn [glob_free] in Hfree. apply andb_true_iff in Hfree as [Hc Hfree].
    unfold glob_meta in Hc. apply negb_true_iff in Hc.
    apply orb_false_iff in Hc as [Hc Hbr]. apply orb_false_iff in Hc as [Hstar Hq].
    cbn [Reference.glob]. rewrite Hstar, Hq.
    destruct name as [|d name]; cbn [orb].
    + rewrite bool_decide_eq_false_2; [reflexivity | discriminate].
    + rewrite IH by assumption. destruct (Ascii.eqb_spec c d) as [->|Hne]; cbn [andb].
      * destruct (decide (name = pat)) as [->|Hn].
        -- rewrite !bool_decide_eq_true_2; reflexivity.
        -- rewrite !bool_decide_eq_false_2; congruence.
      * rewrite bool_decide_eq_false_2; [reflexivity | congruence].
Qed.

#[export] Instance reference_fnmatch : Fnmatch :=
  {| fnmatch := fun name pat => Reference.glob pat name;
     fnmatch_literal := fun name pat => glob_literal pat name |}.

#[export] Instance reference_json : JSONCodec :=
  {| json_dumps := Reference.dumps; json_loads := Reference.loads |}.

#[export] Instance reference_crypt : CryptContext :=
  {| pwd_hash := Reference.hash; pwd_verify := Reference.check |}.

Lemma reference_verify_encode (claims : gmap string claim) (key : string) :
  Reference.verify (Reference.Signed key claims) key = Some claims.
Proof. simpl. rewrite String.eqb_refl. reflexivity. Qed.

Lemma reference_verify_claims (t : Reference.token) (key : string)
    (claims : gmap string claim) :
  Reference.verify t key = Some claims -> Reference.unverified_claims t = Some claims.
Proof.
  destruct t as [k c|text]; simpl; [|discriminate].
  destruct (String.eqb k key); [trivial | discriminate].
Qed.

#[export] Instance reference_jose : JOSE :=
  {| jwt := Reference.token;
     jwt_encode := fun claims key => Reference.Signed key claims;
     jws_verify := Reference.verify;
     jwt_get_unverified_claims := Reference.unverified_claims;
     jws_verify_encode := reference_verify_encode;
     jws_verify_claims := reference_verify_claims |}.

(** ** Specifications the store is compared with

    A reader at time [now] sees a key whose expiry lies before [now] as
    absent: that is what [get] answers. *)

Definition lapsed (now : Z) (r : MockRedis) (key : string) : bool :=
  match _expires r !! key with
  | Some t => t <? now
  | None => false
  end.

Definition live (now : Z) (r : MockRedis) (key : string) : option string :=
  if lapsed now r key then None else _data r !! key.

(** [increment(key)] as the specification words it: create at 0 when the
    key is absent (a lapsed key counts as absent), then add one. *)
Definition incr_spec (now : Z) (key : string) (r : MockRedis) : option Z :=
  match live now r key with
  | None => Some (0 + 1)
  | Some s => option_map (fun current => current + 1) (int s)
  end.

(** [ttl(key)] as the specification words it: seconds remaining for a
    key with a TTL, [-1] without a TTL, [-2] when absent or lapsed. *)
Definition ttl_spec (now : Z) (key : string) (r : MockRedis) : Z :=
  match live now r key with
  | None => -2
  | Some _ =>
      match _expires r !! key with
      | None => -1
      | Some t => int_seconds (t - now)
      end
  end.

(** The same with the floor the code applies: a key that is present
    never reports less than one second. *)
Definition ttl_clamped_spec (now : Z) (key : string) (r : MockRedis) : Z :=
  let s := ttl_spec now key r in
  if s <? 0 then s else Z.max 1 s.

(** The invariant of the store: every key with an expiry has a value. *)
Definition wf (r : MockRedis) : Prop :=
  forall key : string, is_Some (_expires r !! key) -> is_Some (_data r !! key).

(** A computation keeps a property of the state, however it ends. *)
Definition preserves {S A} (P : S -> Prop) (m : M S A) : Prop :=
  forall s : S, P s -> P (m s).2.

(** The answer of [reset_password] to a token it does not accept. *)
Definition invalid_or_expired : exn :=
  HTTPException HTTP_400_BAD_REQUEST "Invalid or expired token".

(** Newest first: no row is followed by a newer one. *)
Inductive newest_first : list Notification.t -> Prop :=
| newest_first_nil : newest_first []
| newest_first_cons (n : Notification.t) (rows : list Notification.t) :
    Forall (fun m => Notification.created_at m <= Notification.created_at n) rows ->
    newest_first rows ->
    newest_first (n :: rows).


(** ** A run of the service

    Two accounts, an active one and a deactivated one, and a few
    requests against an empty store, executed with the reference
    instances. *)

Module Scenario.

Definition secret : string := "test-secret".

Definition alice : User.t :=
  User.mk 1 "alice" "alice@example.com" (Reference.hash "s1" "Sw0rd!x") true None.

Definition bob : User.t :=
  User.mk 2 "bob" "bob@example.com" (Reference.hash "s2" "Passw0rd!") false None.

Definition task_created : Notification.t :=
  Notification.mk 10 1 "Task created" false 1000.

Definition task_due : Notification.t :=
  Notification.mk 11 1 "Task due" false 2000.

Definition app0 : App :=
  mkApp (mkSession [alice; bob] [task_created; task_due]) MockRedis.init.

(** [n] logins with a wrong password, one per second from second 1. *)
Fixpoint failed_logins (n : nat) (username : string) (app : App) : App :=
  match n with
  | O => app
  | S n' =>
      let app' := failed_logins n' username app in
      (login secret (seconds (Z.of_nat n)) username "wrong" app').2
  end.

End Scenario.

(** ** Readings used to state properties *)

(** The number of failed logins the throttle has on record for a user
    name at time [now]: 0 when a reader finds no counter. *)
Definition failures (now : Z) (r : MockRedis) (username : string) : option Z :=
  match live now r (login_attempts_key username) with
  | None => Some 0
  | Some a => int a
  end.

(** Each time of the list is at most [LOCKOUT_TIME] minutes after the
    one before it, the first after [prev]. *)
Fixpoint window_chain (prev : Z) (times : list Z) : Prop :=
  match times with
  | [] => True
  | t :: rest => t <= prev + minutes settings.LOCKOUT_TIME /\ window_chain t rest
  end.

(** The entry under one key. *)
Definition entry (k : string) (r : MockRedis) : option string * option Z :=
  (_data r !! k, _expires r !! k).

(** A row without its [last_login]. *)
Definition credentials (u : User.t) : Z * string * string * string * bool :=
  (User.id u, User.username u, User.email u, User.hashed_password u, User.is_active u).

(** The credential check of [login] fails: no row, or a wrong password. *)
Definition bad_credentials `{CryptContext} (db : Session) (username password : string)
  : Prop :=
  match user_by_username db username with
  | Some user => verify_password password (User.hashed_password user) = false
  | None => True
  end.

(** ** Requests

    The requests modelled here, and the state a sequence of them leaves
    behind, whatever each one answers. *)

Inductive request : Type :=
| Login (now : Z) (username password : string)
| RequestPasswordReset (now : Z) (uuid email : string)
| ResetPassword (now : Z) (salt token new_password : string)
| GetNotifications (now : Z) (current_user : User.t)
| MarkNotificationRead (now : Z) (notification_id : Z) (current_user : User.t)
| Register (new_id : Z) (salt username email password : string)
| DeleteNotification (now : Z) (notification_id : Z) (current_user : User.t).

Definition handle `{Fnmatch} `{JSONCodec} `{JOSE} `{CryptContext}
    (SECRET_KEY : string) (q : request) (app : App) : App :=
  match q with
  | Login now username password => (login SECRET_KEY now username password app).2
  | RequestPasswordReset now uuid email => (request_password_reset now uuid email app).2
  | ResetPassword now salt token new_password =>
      (reset_password now salt token new_password app).2
  | GetNotifications now current_user => (get_notifications now current_user app).2
  | MarkNotificationRead now notification_id current_user =>
      (mark_notification_read now notification_id current_user app).2
  | Register new_id salt username email password =>
      (register new_id salt username email password app).2
  | DeleteNotification now notification_id current_user =>
      (delete_notification now notification_id current_user app).2
  end.

Definition serve `{Fnmatch} `{JSONCodec} `{JOSE} `{CryptContext}
    (SECRET_KEY : string) (requests : list request) (app : App) : App :=
  fold_left (fun a q => handle SECRET_KEY q a) requests app.

(** ** Stores used as concrete inputs *)

(** A counter written with a one-second TTL and read two seconds later. *)
Definition stale_counter : MockRedis :=
  (MockRedis.setex 0 "hits" 1 "5" MockRedis.init).2.

(** A key stored with a two-second TTL. *)
Definition two_second_key : MockRedis :=
  (MockRedis.setex 0 "session" 2 "v" MockRedis.init).2.

(** A store holding a reset token for an hour, a cache entry for one
    second and a login counter without expiry, all written at time 0. *)
Definition mixed_store : MockRedis :=
  (MockRedis.set 0 "login_attempts:bob" "2" None
     (MockRedis.setex 0 "user_notifications:1" 1 "[]"
        (MockRedis.setex 0 "reset_token:4f9c" 3600 "{}" MockRedis.init).2).2).2.

(** * Facts *)

(** ** [str] and [int] *)

Lemma to_int_proper (n : Z) :
  Z.to_int n <> Decimal.Pos Decimal.Nil /\ Z.to_int n <> Decimal.Neg Decimal.Nil.
Proof.
  destruct n as [|p|p]; simpl; split; try discriminate;
    intros [= E]; exact (DecimalPos.Unsigned.to_uint_nonnil p E).
Qed.

Lemma int_str (n : Z) : int (str n) = Some n.
Proof.
  unfold int, str. destruct (to_int_proper n) as [Hp Hn].
  rewrite NilZero.isi by assumption. simpl. f_equal. apply DecimalZ.of_to.
Qed.

Lemma int_truthy (s : string) (n : Z) : int s = Some n -> truthy_str s = true.
Proof. destruct s; [discriminate | reflexivity]. Qed.

Lemma glob_free_app (a b : string) :
  glob_free (a +:+ b) = glob_free a && glob_free b.
Proof.
  induction a as [|c a IH]; simpl; [reflexivity|].
  rewrite IH. apply andb_assoc.
Qed.

Lemma glob_free_uint (d : Decimal.uint) : glob_free (NilEmpty.string_of_uint d) = true.
Proof. induction d; simpl; auto. Qed.

Lemma glob_free_str (n : Z) : glob_free (str n) = true.
Proof.
  unfold str. destruct (Z.to_int n) as [d|d]; simpl.
  - destruct d; simpl; auto using glob_free_uint.
  - destruct d; simpl; auto using glob_free_uint.
Qed.

(** ** The reference instances at work *)

Example reference_json_reset_token :
  json_loads (json_dumps (PDict [("user_id", PInt 7)])) = Some (PDict [("user_id", PInt 7)]).
Proof. reflexivity. Qed.

Example reference_json_nested :
  json_loads (json_dumps (PList [PDict [("message", PStr "hi"); ("id", PInt (-3));
                                         ("is_read", PBool false)]; PNone; PList []]))
  = Some (PList [PDict [("message", PStr "hi"); ("id", PInt (-3));
                        ("is_read", PBool false)]; PNone; PList []]).
Proof. vm_compute. reflexivity. Qed.

Example reference_glob_star :
  fnmatch "reset_token:abc" "reset_token:*" = true
  /\ fnmatch "login_attempts:bob" "reset_token:*" = false.
Proof. split; reflexivity. Qed.

(** ** The monad *)

Lemma preserves_ret {S A} (P : S -> Prop) (a : A) : preserves P (ret a).
Proof. intros s Hs. exact Hs. Qed.

Lemma preserves_raise {S A} (P : S -> Prop) (e : exn) : preserves P (@raise S A e).
Proof. intros s Hs. exact Hs. Qed.

Lemma preserves_bind {S A B} (P : S -> Prop) (m : M S A) (k : A -> M S B) :
  preserves P m -> (forall a, preserves P (k a)) -> preserves P (bind m k).
Proof.
  intros Hm Hk s Hs. unfold bind. specialize (Hm s Hs).
  destruct (m s) as [[a|e] s']; simpl in *; [apply Hk; assumption | assumption].
Qed.

Lemma preserves_try_except {S A} (P : S -> Prop) (m : M S A) (h : exn -> M S A) :
  preserves P m -> (forall e, preserves P (h e)) -> preserves P (try_except m h).
Proof.
  intros Hm Hh s Hs. unfold try_except. specialize (Hm s Hs).
  destruct (m s) as [[a|e] s']; simpl in *; [assumption | apply Hh; assumption].
Qed.

Lemma preserves_for_each {S A} (P : S -> Prop) (xs : list A) (body : A -> M S unit) :
  (forall x, preserves P (body x)) -> preserves P (for_each xs body).
Proof.
  intros Hbody. induction xs as [|x xs IH]; simpl.
  - apply preserves_ret.
  - apply preserves_bind; [apply Hbody | intros _; exact IH].
Qed.

Lemma preserves_on_redis {A} (P : MockRedis -> Prop) (m : M MockRedis A) :
  preserves P m -> preserves (fun a => P (redis a)) (on_redis m).
Proof.
  intros Hm a Ha. unfold on_redis. specialize (Hm (redis a) Ha).
  destruct (m (redis a)) as [res r']. exact Hm.
Qed.

Create HintDb keeps discriminated.
#[export] Hint Resolve preserves_ret preserves_raise preserves_bind
  preserves_try_except preserves_for_each : keeps.

(** ** The store invariant *)

Lemma wf_init : wf MockRedis.init.
Proof. intros key [t Ht]. simpl in Ht. rewrite lookup_empty in Ht. discriminate. Qed.

Lemma wf_delete (key : string) (r : MockRedis) :
  wf r -> wf (mkRedis (delete key (_data r)) (delete key (_expires r))).
Proof.
  intros Hwf k. simpl. destruct (decide (key = k)) as [->|Hne].
  - rewrite !lookup_delete_eq. intros [t Ht]. discriminate.
  - rewrite !lookup_delete_ne by assumption. apply Hwf.
Qed.

Lemma wf_insert_data (key value : string) (r : MockRedis) :
  wf r -> wf (mkRedis (<[key := value]> (_data r)) (_expires r)).
Proof.
  intros Hwf k Hk. simpl in *. destruct (decide (key = k)) as [->|Hne].
  - rewrite lookup_insert_eq. eauto.
  - rewrite lookup_insert_ne by assumption. apply Hwf, Hk.
Qed.

Lemma wf_del_both (key : string) : preserves wf (MockRedis.del_both key).
Proof.
  intros r Hwf. unfold MockRedis.del_both.
  destruct (_data r !! key) eqn:Hd; [|exact Hwf].
  destruct (_expires r !! key) eqn:He; simpl.
  - apply wf_delete, Hwf.
  - intros k Hk. simpl in *. destruct (decide (key = k)) as [->|Hne].
    + rewrite He in Hk. destruct Hk; discriminate.
    + rewrite lookup_delete_ne by assumption. apply Hwf, Hk.
Qed.

Lemma wf_get (now : Z) (key : string) : preserves wf (MockRedis.get now key).
Proof.
  intros r Hwf. unfold MockRedis.get.
  destruct (_expires r !! key) as [t|]; [|exact Hwf].
  destruct (t <? now); [|exact Hwf].
  apply (preserves_bind wf); [apply wf_del_both | intros; apply preserves_ret | exact Hwf].
Qed.

Lemma wf_expire (now : Z) (key : string) (time : Z) :
  preserves wf (MockRedis.expire now key time).
Proof.
  intros r Hwf. unfold MockRedis.expire.
  destruct (_data r !! key) eqn:Hd; [|exact Hwf].
  intros k Hk. simpl in *. destruct (decide (key = k)) as [->|Hne].
  - rewrite Hd. eauto.
  - rewrite lookup_insert_ne in Hk by assumption. apply Hwf, Hk.
Qed.

Lemma wf_setex (now : Z) (key : string) (time : Z) (value : string) :
  preserves wf (MockRedis.setex now key time value).
Proof.
  intros r Hwf. unfold MockRedis.setex.
  apply (preserves_bind wf); [apply wf_expire | intros; apply preserves_ret |].
  apply wf_insert_data, Hwf.
Qed.

Lemma wf_set (now : Z) (key value : string) (ex : option Z) :
  preserves wf (MockRedis.set now key value ex).
Proof.
  intros r Hwf. unfold MockRedis.set.
  pose proof (wf_insert_data key value r Hwf) as Hwf1.
  destruct ex as [t|]; [|exact Hwf1].
  destruct (t =? 0); [exact Hwf1|].
  apply (preserves_bind wf); [apply wf_expire | intros; apply preserves_ret | exact Hwf1].
Qed.

Lemma wf_delete_op (key : string) : preserves wf (MockRedis.delete key).
Proof.
  intros r Hwf. unfold MockRedis.delete.
  destruct (_data r !! key); [apply wf_delete, Hwf | exact Hwf].
Qed.

Lemma wf_incr (key : string) : preserves wf (MockRedis.incr key).
Proof.
  intros r Hwf. unfold MockRedis.incr.
  destruct (_data r !! key) as [s|]; [destruct (int s)|]; simpl;
    auto using wf_insert_data.
Qed.

Lemma wf_ttl (now : Z) (key : string) : preserves wf (MockRedis.ttl now key).
Proof.
  intros r Hwf. unfold MockRedis.ttl.
  destruct (_data r !! key); [destruct (_expires r !! key)|]; exact Hwf.
Qed.

Lemma wf_flushall : preserves wf MockRedis.flushall.
Proof. intros r _. apply wf_init. Qed.

Lemma wf_clean_expired (now : Z) : preserves wf (MockRedis._clean_expired now).
Proof.
  intros r Hwf. unfold MockRedis._clean_expired.
  apply (preserves_for_each wf); [apply wf_del_both | exact Hwf].
Qed.

Lemma wf_keys `{Fnmatch} (now : Z) (pattern : string) :
  preserves wf (MockRedis.keys now pattern).
Proof.
  unfold MockRedis.keys. apply preserves_bind; [apply wf_clean_expired|].
  intros _ r Hwf. exact Hwf.
Qed.

#[export] Hint Resolve wf_del_both wf_get wf_expire wf_setex wf_set wf_delete_op
  wf_incr wf_ttl wf_flushall wf_clean_expired wf_keys : keeps.

(** ** What [get] answers *)

Lemma get_live (now : Z) (key : string) (r : MockRedis) :
  lapsed now r key = false -> MockRedis.get now key r = (Ok (_data r !! key), r).
Proof.
  unfold lapsed, MockRedis.get. destruct (_expires r !! key) as [t|]; [|reflexivity].
  intros ->. reflexivity.
Qed.

Lemma get_lapsed (now : Z) (key : string) (r : MockRedis) :
  wf r -> lapsed now r key = true ->
  MockRedis.get now key r
  = (Ok None, mkRedis (delete key (_data r)) (delete key (_expires r))).
Proof.
  intros Hwf. unfold lapsed, MockRedis.get.
  destruct (_expires r !! key) as [t|] eqn:He; [|discriminate].
  intros ->. unfold bind, MockRedis.del_both. rewrite He.
  destruct (Hwf key) as [v Hv]; [rewrite He; eauto|]. rewrite Hv. reflexivity.
Qed.

Lemma get_value (now : Z) (key : string) (r : MockRedis) :
  wf r -> (MockRedis.get now key r).1 = Ok (live now r key).
Proof.
  intros Hwf. unfold live. destruct (lapsed now r key) eqn:Hl.
  - rewrite get_lapsed by assumption. reflexivity.
  - rewrite get_live by assumption. reflexivity.
Qed.

Lemma wf_absent (key : string) (r : MockRedis) :
  wf r -> _data r !! key = None -> _expires r !! key = None.
Proof.
  intros Hwf Hd. destruct (_expires r !! key) eqn:He; [|reflexivity].
  destruct (Hwf key) as [v Hv]; [rewrite He; eauto | congruence].
Qed.

Lemma get_absent (now : Z) (key : string) (r : MockRedis) :
  wf r -> _data r !! key = None -> MockRedis.get now key r = (Ok None, r).
Proof.
  intros Hwf Hd. rewrite get_live.
  - rewrite Hd. reflexivity.
  - unfold lapsed. rewrite (wf_absent key r Hwf Hd). reflexivity.
Qed.

(** After [get], a reader at that time or later still sees what it would
    have seen before. *)
Lemma get_keeps_live (now later : Z) (key k : string) (r : MockRedis) :
  now <= later ->
  live later (MockRedis.get now key r).2 k = live later r k.
Proof.
  intros Hlater. unfold MockRedis.get.
  destruct (_expires r !! key) as [t|] eqn:He; [|reflexivity].
  destruct (t <? now) eqn:Hlt; [|reflexivity].
  unfold bind, MockRedis.del_both. rewrite He.
  destruct (_data r !! key) eqn:Hd; [|reflexivity]. simpl.
  unfold live, lapsed. simpl. destruct (decide (key = k)) as [->|Hne].
  - rewrite !lookup_delete_eq, He. apply Z.ltb_lt in Hlt.
    destruct (t <? later) eqn:Hl2; [reflexivity | apply Z.ltb_ge in Hl2; lia].
  - rewrite !lookup_delete_ne by assumption. reflexivity.
Qed.

(** ** The counter operation [incr] (claim C7) *)

(** On a key that has not lapsed, [incr] is the specified increment. *)
Lemma incr_live (now : Z) (key : string) (r : MockRedis) (n : Z) :
  lapsed now r key = false ->
  incr_spec now key r = Some n ->
  (MockRedis.incr key r).1 = Ok n
  /\ _data (MockRedis.incr key r).2 !! key = Some (str n).
Proof.
  unfold incr_spec, live, MockRedis.incr. intros -> Hspec.
  destruct (_data r !! key) as [s|].
  - destruct (int s) as [current|]; simpl in Hspec; [|discriminate].
    injection Hspec as <-. simpl. rewrite lookup_insert_eq. auto.
  - injection Hspec as <-. simpl. rewrite lookup_insert_eq. auto.
Qed.

(** C7, at the failing input.  Two seconds after a counter holding 5 was
    stored with a one-second TTL, a reader finds the key absent, so the
    specified increment answers 1; [incr] answers 6, stores ["6"] and
    leaves the old expiry in place, so the next [get] evicts the value
    just written. *)
Theorem incr_ignores_lapsed_ttl :
  let now := seconds 2 in
  live now stale_counter "hits" = None
  /\ incr_spec now "hits" stale_counter = Some 1
  /\ (MockRedis.incr "hits" stale_counter).1 = Ok 6
  /\ _data (MockRedis.incr "hits" stale_counter).2 !! "hits" = Some "6"
  /\ (MockRedis.get now "hits" (MockRedis.incr "hits" stale_counter).2).1 = Ok None.
Proof. vm_compute. repeat split; reflexivity. Qed.

(** ** The remaining lifetime [ttl] (claim C8) *)

(** C8 as stated fails.  Exactly two seconds after a key was stored
    with a two-second TTL it is still readable and zero seconds remain,
    yet [ttl] answers 1. *)
Lemma ttl_spec_counterexample :
  let now := seconds 2 in
  (MockRedis.get now "session" two_second_key).1 = Ok (Some "v")
  /\ ttl_spec now "session" two_second_key = 0
  /\ (MockRedis.ttl now "session" two_second_key).1 = Ok 1
  /\ (MockRedis.ttl now "session" two_second_key).1
     <> Ok (ttl_spec now "session" two_second_key).
Proof. vm_compute. repeat split; try reflexivity. discriminate. Qed.

(** C8, amended.  For a key that has not lapsed, [ttl] answers the whole
    seconds remaining but never less than 1 when the key has a TTL, [-1]
    when it has none and [-2] when it is not stored; the store is left
    as it was. *)
Theorem ttl_floor (now : Z) (key : string) (r : MockRedis) :
  lapsed now r key = false ->
  MockRedis.ttl now key r = (Ok (ttl_clamped_spec now key r), r).
Proof.
  intros Hl. unfold MockRedis.ttl, ttl_clamped_spec, ttl_spec, live. rewrite Hl.
  destruct (_data r !! key) as [v|]; [|reflexivity].
  unfold lapsed in Hl. destruct (_expires r !! key) as [t|]; [|reflexivity].
  apply Z.ltb_ge in Hl.
  assert (0 <= int_seconds (t - now)) as Hpos.
  { unfold int_seconds, usec. apply Z.quot_pos; lia. }
  destruct (int_seconds (t - now) <? 0) eqn:Hneg; [apply Z.ltb_lt in Hneg; lia|].
  reflexivity.
Qed.

Lemma ttl_floor_witness :
  MockRedis.ttl (seconds 2) "session" two_second_key = (Ok 1, two_second_key)
  /\ MockRedis.ttl 1600000 "session" two_second_key = (Ok 1, two_second_key)
  /\ MockRedis.ttl 0 "session" two_second_key = (Ok 2, two_second_key)
  /\ MockRedis.ttl 0 "other" two_second_key = (Ok (-2), two_second_key).
Proof.
  split; [|split; [|split]].
  - apply (ttl_floor (seconds 2) "session" two_second_key). reflexivity.
  - apply (ttl_floor 1600000 "session" two_second_key). reflexivity.
  - apply (ttl_floor 0 "session" two_second_key). reflexivity.
  - apply (ttl_floor 0 "other" two_second_key). reflexivity.
Defined.

(** ** The login throttle *)

Lemma check_login_attempts_locked (now : Z) (username a : string) (n : Z)
    (r : MockRedis) :
  lapsed now r (login_attempts_key username) = false ->
  _data r !! login_attempts_key username = Some a ->
  int a = Some n ->
  settings.MAX_LOGIN_ATTEMPTS <= n ->
  check_login_attempts now username r = (Ok false, r).
Proof.
  intros Hl Hd Hint Hn. unfold check_login_attempts, bind.
  rewrite get_live by assumption. rewrite Hd, (int_truthy a n Hint), Hint.
  apply Z.leb_le in Hn. rewrite Hn. reflexivity.
Qed.

Lemma check_login_attempts_absent (now : Z) (username : string) (r : MockRedis) :
  _data r !! login_attempts_key username = None ->
  _expires r !! login_attempts_key username = None ->
  check_login_attempts now username r = (Ok true, r).
Proof.
  intros Hd He. unfold check_login_attempts, bind.
  rewrite get_live by (unfold lapsed; rewrite He; reflexivity).
  rewrite Hd. reflexivity.
Qed.

Lemma check_login_attempts_lapsed (now : Z) (username : string) (r : MockRedis) :
  wf r ->
  lapsed now r (login_attempts_key username) = true ->
  check_login_attempts now username r
  = (Ok true, mkRedis (delete (login_attempts_key username) (_data r))
                      (delete (login_attempts_key username) (_expires r))).
Proof.
  intros Hwf Hl. unfold check_login_attempts, bind.
  rewrite get_lapsed by assumption. reflexivity.
Qed.

(** The throttle check only reads: it leaves the state [get] leaves. *)
Lemma check_login_attempts_state (now : Z) (username : string) (r : MockRedis) :
  (check_login_attempts now username r).2
  = (MockRedis.get now (login_attempts_key username) r).2.
Proof.
  unfold check_login_attempts, bind.
  destruct (MockRedis.get now (login_attempts_key username) r) as [[[a|]|e] r'];
    try reflexivity.
  simpl. destruct (truthy_str a); [|reflexivity].
  destruct (int a) as [n|]; [|reflexivity].
  destruct (settings.MAX_LOGIN_ATTEMPTS <=? n); reflexivity.
Qed.

Lemma reset_login_attempts_clears (username : string) (r : MockRedis) :
  wf r ->
  let r' := (reset_login_attempts username r).2 in
  _data r' !! login_attempts_key username = None
  /\ _expires r' !! login_attempts_key username = None
  /\ (reset_login_attempts username r).1 = Ok tt.
Proof.
  intros Hwf. unfold reset_login_attempts, bind, MockRedis.delete.
  destruct (_data r !! login_attempts_key username) eqn:Hd; simpl.
  - rewrite !lookup_delete_eq. auto.
  - rewrite Hd. auto using wf_absent.
Qed.

Section Login.

Context `{JOSE} `{CryptContext}.
Variable SECRET_KEY : string.

(** [login] keeps the store invariant. *)
Lemma wf_login (now : Z) (username password : string) :
  preserves (fun a => wf (redis a)) (login SECRET_KEY now username password).
Proof.
  assert (Hinc : preserves (fun a => wf (redis a))
                   (on_redis (increment_login_attempts now username))).
  { apply preserves_on_redis. unfold increment_login_attempts.
    repeat (apply preserves_bind; [auto with keeps | intros ?]). apply preserves_ret. }
  unfold login. apply preserves_bind.
  - apply preserves_on_redis. unfold check_login_attempts.
    apply preserves_bind; [auto with keeps|]. intros [a|]; [|apply preserves_ret].
    destruct (truthy_str a); [|apply preserves_ret].
    destruct (int a) as [n|]; [|apply preserves_raise].
    destruct (settings.MAX_LOGIN_ATTEMPTS <=? n); apply preserves_ret.
  - intros allowed. destruct (negb allowed); [apply preserves_raise|].
    apply preserves_bind; [intros a Ha; exact Ha|]. intros d.
    destruct (user_by_username d username) as [user|].
    + destruct (negb (verify_password password (User.hashed_password user))).
      * apply preserves_bind; [exact Hinc | intros; apply preserves_raise].
      * destruct (negb (User.is_active user)); [apply preserves_raise|].
        apply preserves_bind.
        -- apply preserves_on_redis. unfold reset_login_attempts.
           apply preserves_bind; [auto with keeps | intros; apply preserves_ret].
        -- intros _. apply preserves_bind; [intros a Ha; exact Ha|].
           intros; apply preserves_ret.
    + apply preserves_bind; [exact Hinc | intros; apply preserves_raise].
Qed.

(** What a successful [login] did: the throttle check passed, the row
    was found, the password verified, the account is active, and the
    state is the one left by the check, the counter deletion and the
    commit of [last_login]. *)
Lemma login_ok_inv (now : Z) (username password : string) (app app' : App)
    (tokens : Token.t) :
  login SECRET_KEY now username password app = (Ok tokens, app') ->
  exists (r1 : MockRedis) (user : User.t),
    check_login_attempts now username (redis app) = (Ok true, r1)
    /\ user_by_username (db app) username = Some user
    /\ verify_password password (User.hashed_password user) = true
    /\ User.is_active user = true
    /\ tokens = bearer_pair SECRET_KEY now (User.username user)
    /\ redis app' = (reset_login_attempts username r1).2.
Proof.
  unfold login, bind, on_redis, get_db, set_db, raise, ret.
  destruct (check_login_attempts now username (redis app)) as [[allowed|e] r1] eqn:Hc;
    [|discriminate].
  destruct allowed; simpl; [|discriminate].
  destruct (user_by_username (db app) username) as [user|] eqn:Hu; simpl.
  - destruct (verify_password password (User.hashed_password user)) eqn:Hv; simpl.
    + destruct (User.is_active user) eqn:Ha; simpl; [|discriminate].
      destruct (reset_login_attempts username r1) as [[u|e] r2] eqn:Hr; simpl;
        [|discriminate].
      intros [= <- <-]. exists r1, user. simpl. rewrite Hr. repeat split; assumption.
    + destruct (increment_login_attempts now username r1) as [[u|e] r2]; discriminate.
  - destruct (increment_login_attempts now username r1) as [[u|e] r2]; discriminate.
Qed.

(** Each failed attempt restarts the lockout window: the counter expires
    [LOCKOUT_TIME] minutes after it. *)
Lemma increment_login_attempts_window (now : Z) (username : string)
    (r r' : MockRedis) :
  increment_login_attempts now username r = (Ok tt, r') ->
  _expires r' !! login_attempts_key username = Some (now + minutes settings.LOCKOUT_TIME)
  /\ exists n : Z, _data r' !! login_attempts_key username = Some (str n).
Proof.
  unfold increment_login_attempts, bind, MockRedis.incr, MockRedis.expire, ret.
  destruct (_data r !! login_attempts_key username) as [s|]; simpl.
  - destruct (int s) as [current|]; simpl; [|discriminate].
    rewrite lookup_insert_eq. intros [= <-]. simpl. rewrite !lookup_insert_eq. eauto.
  - rewrite lookup_insert_eq. intros [= <-]. simpl. rewrite !lookup_insert_eq. eauto.
Qed.

(** A login with a wrong password or an unknown user name, once past the
    throttle check, counts the failure, restarts the window and answers
    401; the database is untouched. *)
Lemma failed_login_counts (now : Z) (username password : string) (app : App)
    (r1 : MockRedis) :
  check_login_attempts now username (redis app) = (Ok true, r1) ->
  match user_by_username (db app) username with
  | Some user => verify_password password (User.hashed_password user) = false
  | None => True
  end ->
  (forall a, _data r1 !! login_attempts_key username = Some a -> is_Some (int a)) ->
  exists (app' : App) (n : Z),
    login SECRET_KEY now username password app
    = (Raise (HTTPException HTTP_401_UNAUTHORIZED "Incorrect username or password"), app')
    /\ _data (redis app') !! login_attempts_key username = Some (str n)
    /\ _expires (redis app') !! login_attempts_key username
       = Some (now + minutes settings.LOCKOUT_TIME)
    /\ db app' = db app.
Proof.
  intros Hc Hbad Hnum.
  assert (exists r2, increment_login_attempts now username r1 = (Ok tt, r2)) as [r2 Hinc].
  { unfold increment_login_attempts, bind, MockRedis.incr, MockRedis.expire, ret.
    destruct (_data r1 !! login_attempts_key username) as [a|] eqn:Hd; simpl.
    - destruct (Hnum a eq_refl) as [current Hcur]. rewrite Hcur. simpl.
      rewrite lookup_insert_eq. eauto.
    - rewrite lookup_insert_eq. eauto. }
  destruct (increment_login_attempts_window now username r1 r2 Hinc) as [Hexp [n Hn]].
  exists (mkApp (db app) r2), n.
  split; [|simpl; auto].
  unfold login, bind, on_redis, get_db, raise. rewrite Hc. simpl.
  destruct (user_by_username (db app) username) as [user|]; simpl.
  - rewrite Hbad. simpl. rewrite Hinc. reflexivity.
  - rewrite Hinc. reflexivity.
Qed.

(** C2.  While the counter of a principal holds a number of at least
    [MAX_LOGIN_ATTEMPTS] and has not lapsed, [login] answers 429 and
    changes nothing, whatever the password, the password verifier and the
    database are: the credential check is not consulted.  Once the
    counter has lapsed, a login with the correct password of an active
    account succeeds, and afterwards the counter is absent. *)
Theorem login_lockout (now : Z) (username : string) :
  (forall (app : App) (a : string) (n : Z) (password : string),
      lapsed now (redis app) (login_attempts_key username) = false ->
      _data (redis app) !! login_attempts_key username = Some a ->
      int a = Some n ->
      settings.MAX_LOGIN_ATTEMPTS <= n ->
      login SECRET_KEY now username password app
      = (Raise (HTTPException HTTP_429_TOO_MANY_REQUESTS
                  "Too many login attempts. Please try again later."), app))
  /\
  (forall (app : App) (user : User.t) (password : string),
      wf (redis app) ->
      lapsed now (redis app) (login_attempts_key username) = true ->
      user_by_username (db app) username = Some user ->
      verify_password password (User.hashed_password user) = true ->
      User.is_active user = true ->
      exists app' : App,
        login SECRET_KEY now username password app
        = (Ok (bearer_pair SECRET_KEY now (User.username user)), app')
        /\ _data (redis app') !! login_attempts_key username = None
        /\ _expires (redis app') !! login_attempts_key username = None).
Proof.
  split.
  - intros [d r] a n password Hl Hd Hint Hn. simpl in *.
    unfold login, bind, on_redis. simpl.
    rewrite (check_login_attempts_locked now username a n r) by assumption.
    reflexivity.
  - intros [d r] user password Hwf Hl Hu Hv Ha. simpl in *.
    unfold login, bind, on_redis, get_db, set_db, ret. simpl.
    rewrite check_login_attempts_lapsed by assumption. simpl.
    rewrite Hu, Hv, Ha. simpl.
    unfold reset_login_attempts, bind, MockRedis.delete, ret. simpl.
    rewrite lookup_delete_eq. simpl.
    eexists. split; [reflexivity|]. simpl. rewrite !lookup_delete_eq. auto.
Qed.

(** C6.  Whatever the store held, after a successful [login] the
    counter of the principal is gone, and the throttle check answers
    [True] from then on. *)
Theorem login_success_resets_counter (now : Z) (username password : string)
    (app app' : App) (tokens : Token.t) :
  wf (redis app) ->
  login SECRET_KEY now username password app = (Ok tokens, app') ->
  _data (redis app') !! login_attempts_key username = None
  /\ forall later : Z,
       check_login_attempts later username (redis app') = (Ok true, redis app').
Proof.
  intros Hwf Hlogin.
  destruct (login_ok_inv now username password app app' tokens Hlogin)
    as (r1 & user & Hc & _ & _ & _ & _ & Hr).
  assert (wf r1) as Hwf1.
  { replace r1 with (check_login_attempts now username (redis app)).2
      by (rewrite Hc; reflexivity).
    rewrite check_login_attempts_state. apply wf_get, Hwf. }
  destruct (reset_login_attempts_clears username r1 Hwf1) as (Hd & He & _).
  rewrite Hr. split; [exact Hd|].
  intros later. apply check_login_attempts_absent; assumption.
Qed.

(** C10, amended.  When the throttle check passes, a login for an
    inactive account with the correct password answers 400 "Inactive
    user"; the database is untouched and a reader sees the counter it saw
    before, now or later.  If the counter had not lapsed, nothing in the
    state changed at all. *)
Theorem inactive_login_keeps_counter (now : Z) (username password : string)
    (app : App) (user : User.t) :
  (check_login_attempts now username (redis app)).1 = Ok true ->
  user_by_username (db app) username = Some user ->
  verify_password password (User.hashed_password user) = true ->
  User.is_active user = false ->
  let out := login SECRET_KEY now username password app in
  out.1 = Raise (HTTPException HTTP_400_BAD_REQUEST "Inactive user")
  /\ db out.2 = db app
  /\ (forall later : Z, now <= later ->
        live later (redis out.2) (login_attempts_key username)
        = live later (redis app) (login_attempts_key username))
  /\ (lapsed now (redis app) (login_attempts_key username) = false -> out.2 = app).
Proof.
  intros Hc Hu Hv Ha. destruct app as [d r]. simpl in *.
  pose proof (check_login_attempts_state now username r) as Hst.
  unfold login, bind, on_redis, get_db, raise. simpl.
  destruct (check_login_attempts now username r) as [res r1]. simpl in *.
  subst res r1. simpl. rewrite Hu, Hv, Ha. simpl.
  split; [reflexivity|]. split; [reflexivity|]. split.
  - intros later Hlater. apply get_keeps_live, Hlater.
  - intros Hl. rewrite get_live by assumption. reflexivity.
Qed.


End Login.

Lemma wf_failed_logins (n : nat) (username : string) (app : App) :
  wf (redis app) -> wf (redis (Scenario.failed_logins n username app)).
Proof.
  intros Hwf. induction n as [|n IH]; [exact Hwf|].
  cbn [Scenario.failed_logins]. apply (wf_login Scenario.secret). exact IH.
Qed.

Example five_failures_counter :
  _data (redis (Scenario.failed_logins 5 "alice" Scenario.app0))
    !! login_attempts_key "alice" = Some "5"
  /\ _expires (redis (Scenario.failed_logins 5 "alice" Scenario.app0))
       !! login_attempts_key "alice" = Some (seconds 5 + minutes 15).
Proof. vm_compute. split; reflexivity. Qed.

(** After five failed logins the sixth, with the correct password, is
    refused; one microsecond past the window it succeeds. *)
Lemma login_lockout_witness :
  let locked := Scenario.failed_logins 5 "alice" Scenario.app0 in
  login Scenario.secret (seconds 6) "alice" "Sw0rd!x" locked
  = (Raise (HTTPException HTTP_429_TOO_MANY_REQUESTS
              "Too many login attempts. Please try again later."), locked)
  /\ exists app' : App,
       login Scenario.secret (seconds 5 + minutes 15 + 1) "alice" "Sw0rd!x" locked
       = (Ok (bearer_pair Scenario.secret (seconds 5 + minutes 15 + 1) "alice"), app')
       /\ _data (redis app') !! login_attempts_key "alice" = None
       /\ _expires (redis app') !! login_attempts_key "alice" = None.
Proof.
  intros locked. split.
  - apply (proj1 (login_lockout Scenario.secret (seconds 6) "alice")
             locked "5" 5 "Sw0rd!x").
    + vm_compute. reflexivity.
    + vm_compute. reflexivity.
    + reflexivity.
    + unfold settings.MAX_LOGIN_ATTEMPTS. lia.
  - apply (proj2 (login_lockout Scenario.secret (seconds 5 + minutes 15 + 1) "alice")
             locked Scenario.alice "Sw0rd!x").
    + apply wf_failed_logins, wf_init.
    + vm_compute. reflexivity.
    + vm_compute. reflexivity.
    + vm_compute. reflexivity.
    + reflexivity.
Defined.

(** Two failures, then a correct login: the counter is gone. *)
Lemma login_success_resets_counter_witness :
  let warned := Scenario.failed_logins 2 "alice" Scenario.app0 in
  let app' := (login Scenario.secret (seconds 3) "alice" "Sw0rd!x" warned).2 in
  _data (redis warned) !! login_attempts_key "alice" = Some "2"
  /\ _data (redis app') !! login_attempts_key "alice" = None
  /\ forall later : Z,
       check_login_attempts later "alice" (redis app') = (Ok true, redis app').
Proof.
  intros warned app'. split; [vm_compute; reflexivity|].
  apply (login_success_resets_counter Scenario.secret (seconds 3) "alice" "Sw0rd!x"
           warned app' (bearer_pair Scenario.secret (seconds 3) "alice")).
  - apply wf_failed_logins, wf_init.
  - vm_compute. reflexivity.
Defined.

(** C10 as stated fails.  The deactivated account is locked out after
    five failures; a login with its correct password is then answered
    429, not 400 "Inactive user". *)
Lemma inactive_login_counterexample :
  let locked := Scenario.failed_logins 5 "bob" Scenario.app0 in
  user_by_username (db locked) "bob" = Some Scenario.bob
  /\ User.is_active Scenario.bob = false
  /\ verify_password "Passw0rd!" (User.hashed_password Scenario.bob) = true
  /\ (login Scenario.secret (seconds 6) "bob" "Passw0rd!" locked).1
     = Raise (HTTPException HTTP_429_TOO_MANY_REQUESTS
                "Too many login attempts. Please try again later.")
  /\ (login Scenario.secret (seconds 6) "bob" "Passw0rd!" locked).1
     <> Raise (HTTPException HTTP_400_BAD_REQUEST "Inactive user").
Proof. vm_compute. repeat split; try reflexivity. discriminate. Qed.

(** The deactivated account after three failures: the fourth attempt,
    with the correct password, is answered 400 and changes nothing. *)
Lemma inactive_login_keeps_counter_witness :
  let warned := Scenario.failed_logins 3 "bob" Scenario.app0 in
  let out := login Scenario.secret (seconds 4) "bob" "Passw0rd!" warned in
  out.1 = Raise (HTTPException HTTP_400_BAD_REQUEST "Inactive user")
  /\ db out.2 = db warned
  /\ (forall later : Z, seconds 4 <= later ->
        live later (redis out.2) (login_attempts_key "bob")
        = live later (redis warned) (login_attempts_key "bob"))
  /\ (lapsed (seconds 4) (redis warned) (login_attempts_key "bob") = false ->
      out.2 = warned).
Proof.
  intros warned.
  apply (inactive_login_keeps_counter Scenario.secret (seconds 4) "bob" "Passw0rd!"
           warned Scenario.bob).
  - vm_compute. reflexivity.
  - vm_compute. reflexivity.
  - vm_compute. reflexivity.
  - reflexivity.
Defined.

(** ** Tokens *)

Lemma timegm_mono (a b : Z) : a <= b -> timegm a <= timegm b.
Proof. intros Hab. unfold timegm, usec. apply Z.div_le_mono; lia. Qed.


Section Tokens.

Context `{JOSE}.
Variable SECRET_KEY : string.

(** Decoding a token this service signed: only the expiry can fail. *)
Lemma jwt_decode_encode (now exp : Z) (username : string)
    (claims : gmap string claim) :
  claims !! "exp" = Some (CInt exp) ->
  claims !! "sub" = Some (CStr username) ->
  jwt_decode now (jwt_encode claims SECRET_KEY) SECRET_KEY
  = if exp <? timegm now then Raise ExpiredSignatureError else Ok claims.
Proof.
  intros Hexp Hsub. unfold jwt_decode. rewrite jws_verify_encode, Hexp, Hsub.
  simpl. destruct (exp <? timegm now); reflexivity.
Qed.

Lemma get_current_user_signed (now exp : Z) (username : string)
    (claims : gmap string claim) (db : Session) :
  claims !! "exp" = Some (CInt exp) ->
  claims !! "sub" = Some (CStr username) ->
  timegm now <= exp ->
  token_subject SECRET_KEY now (jwt_encode claims SECRET_KEY) = Ok (Some (CStr username))
  /\ get_current_user SECRET_KEY now (jwt_encode claims SECRET_KEY) db
     = match user_by_username db username with
       | Some user => Ok user
       | None => Raise credentials_exception
       end.
Proof.
  intros Hexp Hsub Hlive. unfold get_current_user, token_subject.
  rewrite (jwt_decode_encode now exp username claims Hexp Hsub).
  destruct (exp <? timegm now) eqn:Hlt; [apply Z.ltb_lt in Hlt; lia|].
  rewrite Hsub. split; reflexivity.
Qed.

(** C4.  The access token [login] issues at time [now] for a user name,
    presented at any time up to [ACCESS_TOKEN_EXPIRE_MINUTES] later,
    decodes to exactly that user name, and [get_current_user] answers the
    row stored under it (401 when there is none). *)
Theorem access_token_round_trip (now later : Z) (username : string) (db : Session) :
  later <= now + minutes settings.ACCESS_TOKEN_EXPIRE_MINUTES ->
  let token := Token.access_token (bearer_pair SECRET_KEY now username) in
  token_subject SECRET_KEY later token = Ok (Some (CStr username))
  /\ get_current_user SECRET_KEY later token db
     = match user_by_username db username with
       | Some user => Ok user
       | None => Raise credentials_exception
       end.
Proof.
  intros Hlater. simpl. unfold create_access_token.
  replace (minutes settings.ACCESS_TOKEN_EXPIRE_MINUTES =? 0) with false by reflexivity.
  apply get_current_user_signed
    with (exp := timegm (now + minutes settings.ACCESS_TOKEN_EXPIRE_MINUTES)).
  - apply lookup_insert_eq.
  - rewrite lookup_insert_ne by discriminate. apply lookup_singleton_eq.
  - apply timegm_mono, Hlater.
Qed.

(** C1, the half the code breaks.  The refresh token [login] issues,
    presented to [get_current_user] while it has not expired, is accepted
    like an access token: the ["refresh"] claim is never looked at. *)
Theorem refresh_token_passes_as_access (now later : Z) (username : string)
    (db : Session) (user : User.t) :
  later <= now + days settings.REFRESH_TOKEN_EXPIRE_DAYS ->
  user_by_username db username = Some user ->
  get_current_user SECRET_KEY later
    (Token.refresh_token (bearer_pair SECRET_KEY now username)) db = Ok user.
Proof.
  intros Hlater Hu. simpl. unfold create_refresh_token.
  destruct (get_current_user_signed later
              (timegm (now + days settings.REFRESH_TOKEN_EXPIRE_DAYS)) username
              (<["refresh" := CBool true]>
                 (<["exp" := CInt (timegm (now + days settings.REFRESH_TOKEN_EXPIRE_DAYS))]>
                    {["sub" := CStr username]})) db) as [_ Hget].
  - rewrite lookup_insert_ne by discriminate. apply lookup_insert_eq.
  - rewrite !lookup_insert_ne by discriminate. apply lookup_singleton_eq.
  - apply timegm_mono, Hlater.
  - rewrite Hget, Hu. reflexivity.
Qed.

(** C1, the half the code keeps.  The access token [login] issues is
    never accepted by [refresh_token]: expired it is refused like any
    invalid token, unexpired it is refused for lacking the ["refresh"]
    claim. *)
Lemma access_token_refused_by_refresh (now later : Z) (username : string)
    (db : Session) :
  refresh_token SECRET_KEY later
    (Some (Token.access_token (bearer_pair SECRET_KEY now username))) db
  = Raise (HTTPException HTTP_401_UNAUTHORIZED
             (if timegm (now + minutes settings.ACCESS_TOKEN_EXPIRE_MINUTES) <? timegm later
              then "Could not validate credentials"
              else "Invalid refresh token")).
Proof.
  simpl. unfold create_access_token, refresh_token.
  replace (minutes settings.ACCESS_TOKEN_EXPIRE_MINUTES =? 0) with false by reflexivity.
  rewrite (jwt_decode_encode later
             (timegm (now + minutes settings.ACCESS_TOKEN_EXPIRE_MINUTES)) username).
  - destruct (timegm (now + minutes settings.ACCESS_TOKEN_EXPIRE_MINUTES) <? timegm later);
      [reflexivity|].
    rewrite lookup_insert_ne by discriminate. rewrite lookup_singleton_eq.
    rewrite lookup_insert_ne by discriminate. rewrite lookup_singleton_ne by discriminate.
    reflexivity.
  - apply lookup_insert_eq.
  - rewrite lookup_insert_ne by discriminate. apply lookup_singleton_eq.
Qed.


End Tokens.

(** The refresh token of a login at second 0, used as a bearer token an
    hour later. *)
Lemma refresh_token_passes_as_access_witness :
  get_current_user Scenario.secret (minutes 60)
    (Token.refresh_token (bearer_pair Scenario.secret 0 "alice")) (db Scenario.app0)
  = Ok Scenario.alice.
Proof.
  apply (refresh_token_passes_as_access Scenario.secret 0 (minutes 60) "alice"
           (db Scenario.app0) Scenario.alice).
  - vm_compute. discriminate.
  - reflexivity.
Defined.

Lemma access_token_round_trip_witness :
  let token := Token.access_token (bearer_pair Scenario.secret (seconds 7) "alice") in
  token_subject Scenario.secret (minutes 30) token = Ok (Some (CStr "alice"))
  /\ get_current_user Scenario.secret (minutes 30) token (db Scenario.app0)
     = Ok Scenario.alice.
Proof.
  apply (access_token_round_trip Scenario.secret (seconds 7) (minutes 30) "alice"
           (db Scenario.app0)).
  vm_compute. discriminate.
Defined.



(** ** Password reset *)

Lemma user_by_id_commit (db : Session) (user user' : User.t) :
  user_by_id db (User.id user') = Some user ->
  user_by_id (commit_user user' db) (User.id user') = Some user'.
Proof.
  unfold user_by_id, commit_user. simpl.
  induction (users db) as [|u rows IH]; simpl; [discriminate|].
  destruct (User.id u =? User.id user') eqn:Hid.
  - intros _. rewrite Z.eqb_refl. reflexivity.
  - rewrite Hid. exact IH.
Qed.

Lemma user_by_id_id (db : Session) (id : Z) (user : User.t) :
  user_by_id db id = Some user -> User.id user = id.
Proof.
  unfold user_by_id. intros Hfind. apply find_some in Hfind as [_ Heq].
  apply Z.eqb_eq, Heq.
Qed.

Section Reset.

Context `{JSONCodec} `{CryptContext}.

(** [reset_password] refuses a token no reader can see. *)
Lemma reset_password_absent (now : Z) (salt token new_password : string) (app : App) :
  wf (redis app) ->
  live now (redis app) (reset_token_key token) = None ->
  (reset_password now salt token new_password app).1 = Raise invalid_or_expired.
Proof.
  intros Hwf Hlive. pose proof (get_value now (reset_token_key token) (redis app) Hwf) as Hget.
  rewrite Hlive in Hget. unfold reset_password, bind, on_redis.
  destruct (MockRedis.get now (reset_token_key token) (redis app)) as [res r1].
  simpl in Hget. subst res. reflexivity.
Qed.

(** What a successful [reset_password] did. *)
Lemma reset_password_ok_inv (now : Z) (salt token new_password : string)
    (app app' : App) (msg : string) :
  reset_password now salt token new_password app = (Ok msg, app') ->
  exists (text : string) (token_data : pyval) (id : Z) (user : User.t),
    _data (redis app) !! reset_token_key token = Some text
    /\ lapsed now (redis app) (reset_token_key token) = false
    /\ json_loads text = Some token_data
    /\ subscript token_data "user_id" = Ok (PInt id)
    /\ user_by_id (db app) id = Some user
    /\ app' = mkApp
               (commit_user
                  (User.mk id (User.username user) (User.email user)
                           (get_password_hash salt new_password)
                           (User.is_active user) (User.last_login user))
                  (db app))
               (mkRedis (delete (reset_token_key token) (_data (redis app)))
                        (delete (reset_token_key token) (_expires (redis app)))).
Proof.
  destruct app as [d r]. unfold reset_password, bind, on_redis, get_db, set_db, raise, ret.
  simpl. destruct (lapsed now r (reset_token_key token)) eqn:Hl.
  - unfold MockRedis.get, lapsed in *.
    destruct (_expires r !! reset_token_key token) as [t|]; [|discriminate].
    rewrite Hl. unfold bind, MockRedis.del_both.
    destruct (_data r !! reset_token_key token);
      [destruct (_expires r !! reset_token_key token)|]; simpl; discriminate.
  - rewrite get_live by assumption. simpl.
    destruct (_data r !! reset_token_key token) as [text|] eqn:Hd; simpl; [|discriminate].
    destruct (truthy_str text); simpl; [|discriminate].
    destruct (json_loads text) as [v|] eqn:Hv; simpl; [|discriminate].
    destruct (subscript v "user_id") as [uid|e] eqn:Hs; simpl; [|discriminate].
    destruct uid as [| | id | | | |]; simpl; try discriminate.
    destruct (user_by_id d id) as [user|] eqn:Hu; simpl; [|discriminate].
    unfold MockRedis.delete. simpl. rewrite Hd. simpl.
    intros [= <- <-]. exists text, v, id, user.
    rewrite (user_by_id_id _ _ _ Hu). auto 10.
Qed.

(** [db.commit()] of one modified row leaves the rows with another
    primary key as they were. *)
Lemma commit_user_others (user' u : User.t) (d : Session) :
  User.id u <> User.id user' ->
  In u (users (commit_user user' d)) <-> In u (users d).
Proof.
  intros Hne. unfold commit_user. simpl. rewrite in_map_iff. split.
  - intros (x & Hx & Hin). destruct (User.id x =? User.id user') eqn:Hid.
    + subst u. congruence.
    + subst u. exact Hin.
  - intros Hin. exists u. split; [|exact Hin].
    apply Z.eqb_neq in Hne. rewrite Hne. reflexivity.
Qed.

(** C3.  A redemption succeeds only on a token a reader of the store
    can see, and it acts on the principal that token names: the row
    whose id is the ["user_id"] of the stored token data gets the hash
    of the new password, keeping its other fields, and no row with
    another id is added, removed or changed.  The token is then gone
    from the store, so every further redemption of the same token, at
    any time and with any password, is answered 400 "Invalid or expired
    token" and changes nothing.  The same answer is given for every
    token a reader of the store cannot see: one that was never issued,
    one whose hour has passed, one that was redeemed. *)
Theorem reset_token_single_use :
  (forall (now : Z) (salt token new_password msg : string) (app app' : App),
      reset_password now salt token new_password app = (Ok msg, app') ->
      (exists (text : string) (token_data : pyval) (id : Z) (user : User.t),
          live now (redis app) (reset_token_key token) = Some text
          /\ json_loads text = Some token_data
          /\ subscript token_data "user_id" = Ok (PInt id)
          /\ user_by_id (db app) id = Some user
          /\ user_by_id (db app') id
             = Some (User.mk id (User.username user) (User.email user)
                             (get_password_hash salt new_password)
                             (User.is_active user) (User.last_login user))
          /\ (forall other : User.t,
                User.id other <> id ->
                In other (users (db app')) <-> In other (users (db app)))
          /\ length (users (db app')) = length (users (db app))
          /\ notifications (db app') = notifications (db app))
      /\ _data (redis app') !! reset_token_key token = None
      /\ forall (later : Z) (salt' password' : string),
           reset_password later salt' token password' app'
           = (Raise invalid_or_expired, app'))
  /\
  (forall (now : Z) (salt token new_password : string) (app : App),
      wf (redis app) ->
      live now (redis app) (reset_token_key token) = None ->
      (reset_password now salt token new_password app).1 = Raise invalid_or_expired).
Proof.
  split; [|intros; apply reset_password_absent; assumption].
  intros now salt token new_password msg app app' Hok.
  destruct (reset_password_ok_inv now salt token new_password app app' msg Hok)
    as (text & token_data & id & user & Hd & Hl & Hv & Hs & Hu & ->).
  split; [|split].
  - exists text, token_data, id, user.
    split; [unfold live; rewrite Hl; exact Hd|].
    split; [exact Hv|]. split; [exact Hs|]. split; [exact Hu|].
    split; [|split; [|split]].
    + apply (user_by_id_commit (db app) user
               (User.mk id (User.username user) (User.email user)
                        (get_password_hash salt new_password)
                        (User.is_active user) (User.last_login user))).
      exact Hu.
    + intros other Hother. simpl.
      apply (commit_user_others
               (User.mk id (User.username user) (User.email user)
                        (get_password_hash salt new_password)
                        (User.is_active user) (User.last_login user))
               other (db app)).
      exact Hother.
    + simpl. apply length_map.
    + reflexivity.
  - simpl. apply lookup_delete_eq.
  - intros later salt' password'.
    unfold reset_password, bind, on_redis. simpl.
    rewrite get_live by (unfold lapsed; simpl; rewrite lookup_delete_eq; reflexivity).
    simpl. rewrite lookup_delete_eq. reflexivity.
Qed.

End Reset.

Lemma wf_request_password_reset `{JSONCodec} (now : Z) (uuid email : string) :
  preserves (fun a => wf (redis a)) (request_password_reset now uuid email).
Proof.
  unfold request_password_reset. apply preserves_bind; [intros a Ha; exact Ha|].
  intros d. destruct (user_by_email d email) as [user|]; [|apply preserves_raise].
  apply preserves_bind; [|intros; apply preserves_ret].
  apply preserves_on_redis. auto with keeps.
Qed.

(** A reset token is requested for Alice and redeemed: her row, the one
    the token names, carries the new hash.  The token is then presented
    again, and so are the same token after its hour and a token never
    issued. *)
Lemma reset_token_single_use_witness :
  let issued := (request_password_reset 0 "4f9c" "alice@example.com" Scenario.app0).2 in
  let redeemed := (reset_password (seconds 60) "s9" "4f9c" "NewPass1!" issued).2 in
  (reset_password (seconds 60) "s9" "4f9c" "NewPass1!" issued).1
  = Ok "Password reset successful"
  /\ user_by_id (db redeemed) 1
     = Some (User.mk 1 "alice" "alice@example.com"
                     (get_password_hash "s9" "NewPass1!") true None)
  /\ reset_password (seconds 120) "s10" "4f9c" "AnotherPass2!" redeemed
     = (Raise invalid_or_expired, redeemed)
  /\ (reset_password (seconds 3601) "s9" "4f9c" "NewPass1!" issued).1
     = Raise invalid_or_expired
  /\ (reset_password (seconds 60) "s9" "0000" "NewPass1!" issued).1
     = Raise invalid_or_expired.
Proof.
  intros issued redeemed.
  assert (wf (redis issued)) as Hwf.
  { apply (wf_request_password_reset 0 "4f9c" "alice@example.com"). apply wf_init. }
  assert (reset_password (seconds 60) "s9" "4f9c" "NewPass1!" issued
          = (Ok "Password reset successful", redeemed)) as Hok
    by (vm_compute; reflexivity).
  destruct (proj1 reset_token_single_use (seconds 60) "s9" "4f9c" "NewPass1!"
              "Password reset successful" issued redeemed Hok)
    as ((text & token_data & id & user & Hlive & Hv & Hs & Hu & Hnew & _) & _ & Hagain).
  split; [rewrite Hok; reflexivity|]. split; [|split; [|split]].
  - vm_compute in Hlive. injection Hlive as <-.
    vm_compute in Hv. injection Hv as <-.
    vm_compute in Hs. injection Hs as <-.
    vm_compute in Hu. injection Hu as <-.
    exact Hnew.
  - apply Hagain.
  - apply (proj2 reset_token_single_use (seconds 3601) "s9" "4f9c" "NewPass1!" issued Hwf).
    vm_compute. reflexivity.
  - apply (proj2 reset_token_single_use (seconds 60) "s9" "0000" "NewPass1!" issued Hwf).
    vm_compute. reflexivity.
Defined.

(** The scenario of the specification, end to end: after the reset the
    new password logs in and the old one does not. *)
Example reset_then_login :
  let issued := (request_password_reset 0 "4f9c" "alice@example.com" Scenario.app0).2 in
  let redeemed := (reset_password (seconds 60) "s9" "4f9c" "NewPass1!" issued).2 in
  (login Scenario.secret (seconds 90) "alice" "NewPass1!" redeemed).1
  = Ok (bearer_pair Scenario.secret (seconds 90) "alice")
  /\ (login Scenario.secret (seconds 90) "alice" "Sw0rd!x" redeemed).1
     = Raise (HTTPException HTTP_401_UNAUTHORIZED "Incorrect username or password").
Proof. vm_compute. split; reflexivity. Qed.

(** ** Cache invalidation *)

Lemma insert_desc_perm (n : Notification.t) (rows : list Notification.t) :
  Permutation (insert_desc n rows) (n :: rows).
Proof.
  induction rows as [|m rows IH]; simpl; [reflexivity|].
  destruct (Notification.created_at m <? Notification.created_at n); [reflexivity|].
  rewrite IH. apply perm_swap.
Qed.

Lemma order_by_created_at_desc_perm (rows : list Notification.t) :
  Permutation (order_by_created_at_desc rows) rows.
Proof.
  unfold order_by_created_at_desc. induction rows as [|n rows IH]; simpl; [reflexivity|].
  rewrite insert_desc_perm, IH. reflexivity.
Qed.

Lemma insert_desc_newest_first (n : Notification.t) (rows : list Notification.t) :
  newest_first rows -> newest_first (insert_desc n rows).
Proof.
  induction 1 as [|m rows Hall Hrows IH]; simpl.
  - constructor; constructor.
  - destruct (Notification.created_at m <? Notification.created_at n) eqn:Hlt.
    + apply Z.ltb_lt in Hlt. constructor; [|constructor; assumption].
      constructor; [lia|]. eapply Forall_impl; [exact Hall|]. simpl. intros; lia.
    + apply Z.ltb_ge in Hlt. constructor; [|exact IH].
      rewrite insert_desc_perm. constructor; assumption.
Qed.

Lemma order_by_created_at_desc_sorted (rows : list Notification.t) :
  newest_first (order_by_created_at_desc rows).
Proof.
  unfold order_by_created_at_desc. induction rows as [|n rows IH]; simpl.
  - constructor.
  - apply insert_desc_newest_first, IH.
Qed.

(** On a store that satisfies the invariant, [_clean_expired] finds
    every expired key in both dictionaries and does not raise. *)
Lemma for_each_del_both_ok (expired : list string) :
  NoDup expired ->
  forall r : MockRedis,
    wf r ->
    (forall key, key ∈ expired -> is_Some (_expires r !! key)) ->
    (for_each expired MockRedis.del_both r).1 = Ok tt.
Proof.
  induction 1 as [|key expired Hnotin Hnodup IH]; intros r Hwf Hall; [reflexivity|].
  simpl. unfold bind. unfold MockRedis.del_both at 1.
  destruct (Hall key) as [t Ht]; [left|].
  destruct (Hwf key) as [v Hv]; [eauto|]. rewrite Hv, Ht.
  apply IH.
  - apply wf_delete, Hwf.
  - intros k Hk. simpl. rewrite lookup_delete_ne; [apply Hall; right; exact Hk|].
    intros ->. exact (Hnotin Hk).
Qed.

Lemma clean_expired_ok (now : Z) (r : MockRedis) :
  wf r -> (MockRedis._clean_expired now r).1 = Ok tt.
Proof.
  intros Hwf. unfold MockRedis._clean_expired.
  apply for_each_del_both_ok; [apply NoDup_fst_map_to_list | exact Hwf |].
  intros key Hkey. apply list_elem_of_fmap in Hkey as ([k t] & -> & Hin).
  apply elem_of_map_to_list in Hin. apply map_lookup_filter_Some in Hin as [Hin _].
  simpl. eauto.
Qed.

Lemma delete_result (key : string) (r : MockRedis) :
  exists b : bool, (MockRedis.delete key r).1 = Ok b.
Proof. unfold MockRedis.delete. destruct (_data r !! key); simpl; eauto. Qed.

Lemma delete_data (key k : string) (r : MockRedis) :
  _data (MockRedis.delete key r).2 !! k
  = if decide (key = k) then None else _data r !! k.
Proof.
  unfold MockRedis.delete. destruct (_data r !! key) eqn:Hd; simpl.
  - destruct (decide (key = k)) as [->|Hne];
      [apply lookup_delete_eq | apply lookup_delete_ne; assumption].
  - destruct (decide (key = k)) as [->|Hne]; [exact Hd | reflexivity].
Qed.

(** Deleting a list of keys never raises; the listed keys are gone and
    no key appears. *)
Lemma for_each_delete (keys : list string) (k : string) :
  forall r : MockRedis,
    (for_each keys (fun key => MockRedis.delete key >> ret tt) r).1 = Ok tt
    /\ (In k keys \/ _data r !! k = None ->
        _data (for_each keys (fun key => MockRedis.delete key >> ret tt) r).2 !! k = None).
Proof.
  induction keys as [|key keys IH]; intros r.
  - simpl. split; [reflexivity|]. intros [[]|Hk]. exact Hk.
  - cbn [for_each]. unfold bind.
    destruct (delete_result key r) as [b Hb]. pose proof (delete_data key k r) as Hdata.
    destruct (MockRedis.delete key r) as [res r1]. simpl in Hb, Hdata. subst res.
    cbn [ret]. destruct (IH r1) as [Hok Hgone]. split; [exact Hok|].
    intros Hk. apply Hgone. rewrite Hdata.
    destruct (decide (key = k)) as [->|Hne]; [right; reflexivity|].
    destruct Hk as [[Heq|Hin]|Hnone]; [contradiction | left; exact Hin | right; exact Hnone].
Qed.

Section Notifications.

Context `{Fnmatch} `{JSONCodec}.

Lemma wf_clear_cache (now : Z) (key_pattern : option string) :
  preserves wf (clear_cache now key_pattern).
Proof.
  assert (preserves wf (MockRedis.flushall >> ret tt)) as Hflush.
  { apply preserves_bind; [apply wf_flushall | intros; apply preserves_ret]. }
  unfold clear_cache. destruct key_pattern as [pattern|]; [|exact Hflush].
  destruct (truthy_str pattern); [|exact Hflush].
  apply preserves_bind; [apply wf_keys|]. intros keys.
  apply preserves_for_each. intros key.
  apply preserves_bind; [apply wf_delete_op | intros; apply preserves_ret].
Qed.

(** On a store that satisfies the invariant, [keys] answers the matching
    keys left after the expired ones are removed. *)
Lemma keys_run (now : Z) (pattern : string) (r : MockRedis) :
  wf r ->
  let r1 := (MockRedis._clean_expired now r).2 in
  MockRedis.keys now pattern r
  = (Ok (List.filter (fun k => fnmatch k pattern) (map_to_list (_data r1)).*1), r1).
Proof.
  intros Hwf. pose proof (clean_expired_ok now r Hwf) as Hclean.
  unfold MockRedis.keys, bind.
  destruct (MockRedis._clean_expired now r) as [res r1]. simpl in *. subst res.
  reflexivity.
Qed.

(** [clear_cache] with a key free of glob characters removes that key. *)
Lemma clear_cache_literal (now : Z) (key : string) (r : MockRedis) :
  wf r ->
  truthy_str key = true ->
  glob_free key = true ->
  (clear_cache now (Some key) r).1 = Ok tt
  /\ _data (clear_cache now (Some key) r).2 !! key = None.
Proof.
  intros Hwf Htruthy Hfree.
  set (r1 := (MockRedis._clean_expired now r).2).
  set (keys := List.filter (fun k => fnmatch k key) (map_to_list (_data r1)).*1).
  assert (clear_cache now (Some key) r
          = for_each keys (fun key => MockRedis.delete key >> ret tt) r1) as ->.
  { unfold clear_cache. rewrite Htruthy. unfold bind at 1.
    rewrite keys_run by assumption. reflexivity. }
  destruct (for_each_delete keys key r1) as [Hok Hgone].
  split; [exact Hok|]. apply Hgone.
  destruct (_data r1 !! key) as [v|] eqn:Hd; [left | right; reflexivity].
  apply filter_In. split.
  - apply list_elem_of_In, list_elem_of_fmap. exists (key, v). split; [reflexivity|].
    apply elem_of_map_to_list, Hd.
  - rewrite fnmatch_literal by assumption. apply bool_decide_eq_true_2. reflexivity.
Qed.

Lemma notifications_key_literal (user_id : Z) :
  truthy_str (notifications_key user_id) = true
  /\ glob_free (notifications_key user_id) = true.
Proof.
  split; [reflexivity|]. unfold notifications_key.
  rewrite glob_free_app, glob_free_str. reflexivity.
Qed.

(** Reading notifications never touches the database and keeps the
    store invariant. *)
Lemma get_notifications_state (now : Z) (user : User.t) (app : App) :
  wf (redis app) ->
  db (get_notifications now user app).2 = db app
  /\ wf (redis (get_notifications now user app).2).
Proof.
  intros Hwf.
  assert (preserves (fun a => db a = db app /\ wf (redis a)) (get_notifications now user))
    as Hkeep; [|apply Hkeep; auto].
  assert (forall A (m : M MockRedis A), preserves wf m ->
            preserves (fun a => db a = db app /\ wf (redis a)) (on_redis m)) as Hon.
  { intros A m Hm a [Hdb Ha]. unfold on_redis. specialize (Hm (redis a) Ha).
    destruct (m (redis a)) as [res r']. simpl in *. auto. }
  assert (forall d, preserves (fun a => db a = db app /\ wf (redis a))
            (on_redis (cache_data now (notifications_key (User.id user))
               (PList (map model_dump (notifications_of d (User.id user))))
               (Some settings.CACHE_TTL)) >> ret (PList (map model_dump
                 (notifications_of d (User.id user)))))) as Hmiss.
  { intros d. apply preserves_bind; [|intros; apply preserves_ret].
    apply Hon. unfold cache_data. apply preserves_try_except; [|intros; apply preserves_ret].
    apply preserves_bind; [apply wf_setex | intros; apply preserves_ret]. }
  unfold get_notifications. apply preserves_bind.
  - apply Hon. unfold get_cached_data.
    apply preserves_try_except; [|intros; apply preserves_ret].
    apply preserves_bind; [apply wf_get|]. intros [text|]; [|apply preserves_ret].
    destruct (truthy_str text); [|apply preserves_ret].
    destruct (json_loads text); [apply preserves_ret | apply preserves_raise].
  - intros [snapshot|].
    + destruct (truthy snapshot); [apply preserves_ret|].
      apply preserves_bind; [intros a Ha; exact Ha | intros d; apply Hmiss].
    + apply preserves_bind; [intros a Ha; exact Ha | intros d; apply Hmiss].
Qed.

(** A read that finds no cache entry answers from the database. *)
Lemma get_notifications_miss (now : Z) (user : User.t) (app : App) :
  wf (redis app) ->
  _data (redis app) !! notifications_key (User.id user) = None ->
  (get_notifications now user app).1
  = Ok (PList (map model_dump (notifications_of (db app) (User.id user)))).
Proof.
  intros Hwf Hd. destruct app as [d r]. simpl in *.
  unfold get_notifications, bind, on_redis, get_cached_data, try_except, get_db. simpl.
  unfold bind. rewrite get_absent by assumption. simpl.
  unfold cache_data, try_except, bind.
  destruct (MockRedis.setex now (notifications_key (User.id user)) settings.CACHE_TTL
              (json_dumps (PList (map model_dump (notifications_of d (User.id user))))) r)
    as [[b|e] r1]; reflexivity.
Qed.




End Notifications.


Example notifications_second_read :
  let app1 := (get_notifications (seconds 1) Scenario.alice Scenario.app0).2 in
  let app2 := (mark_notification_read (seconds 2) 10 Scenario.alice app1).2 in
  (get_notifications (seconds 3) Scenario.alice app2).1
  = Ok (PList [model_dump Scenario.task_due;
               model_dump (Notification.mk 10 1 "Task created" true 1000)]).
Proof. vm_compute. reflexivity. Qed.

(** ** Every state the service reaches satisfies the store invariant *)

Lemma wf_reset_password `{JSONCodec} `{CryptContext} (now : Z)
    (salt token new_password : string) :
  preserves (fun a => wf (redis a)) (reset_password now salt token new_password).
Proof.
  unfold reset_password. apply preserves_bind.
  - apply preserves_on_redis, wf_get.
  - intros token_data. destruct (negb (truthy_opt token_data)); [apply preserves_raise|].
    destruct token_data as [text|]; [|apply preserves_raise].
    destruct (json_loads text) as [v|]; [|apply preserves_raise].
    destruct (subscript v "user_id") as [uid|e]; [|apply preserves_raise].
    apply preserves_bind; [intros a Ha; exact Ha|]. intros d.
    destruct (match uid with PInt id => user_by_id d id | _ => None end);
      [|apply preserves_raise].
    apply preserves_bind; [intros a Ha; exact Ha|]. intros _.
    apply preserves_bind; [apply preserves_on_redis, wf_delete_op|].
    intros; apply preserves_ret.
Qed.

Lemma wf_mark_notification_read `{Fnmatch} (now notification_id : Z) (user : User.t) :
  preserves (fun a => wf (redis a)) (mark_notification_read now notification_id user).
Proof.
  unfold mark_notification_read. apply preserves_bind; [intros a Ha; exact Ha|].
  intros d. destruct (find _ (notifications d)) as [n|]; [|apply preserves_raise].
  destruct (Notification.is_read n); [apply preserves_raise|].
  apply preserves_bind; [intros a Ha; exact Ha|]. intros _.
  apply preserves_bind; [apply preserves_on_redis, wf_clear_cache|].
  intros; apply preserves_ret.
Qed.

Lemma wf_handle `{Fnmatch} `{JSONCodec} `{JOSE} `{CryptContext}
    (SECRET_KEY : string) (q : request) (app : App) :
  wf (redis app) -> wf (redis (handle SECRET_KEY q app)).
Proof.
  intros Hwf. destruct q; simpl.
  - apply (wf_login SECRET_KEY), Hwf.
  - apply (wf_request_password_reset now uuid email), Hwf.
  - apply (wf_reset_password now salt token new_password), Hwf.
  - apply get_notifications_state, Hwf.
  - apply (wf_mark_notification_read now notification_id current_user), Hwf.
  - unfold register, bind, get_db, set_db, raise, ret.
    destruct (find _ (users (db app))); exact Hwf.
  - pose proof (wf_clear_cache now (Some (notifications_key (User.id current_user)))
                  (redis app) Hwf) as Hwf'.
    unfold delete_notification.
    remember (clear_cache now (Some (notifications_key (User.id current_user))))
      as clear eqn:Hclear.
    unfold bind, get_db, set_db, on_redis, raise, ret.
    destruct (find _ (notifications (db app))); [|exact Hwf]. simpl.
    destruct (clear (redis app)) as [[u|e] r']; exact Hwf'.
Qed.

Lemma wf_serve `{Fnmatch} `{JSONCodec} `{JOSE} `{CryptContext}
    (SECRET_KEY : string) (requests : list request) (app : App) :
  wf (redis app) -> wf (redis (serve SECRET_KEY requests app)).
Proof.
  unfold serve. revert app. induction requests as [|q requests IH]; intros app Hwf.
  - exact Hwf.
  - simpl. apply IH, wf_handle, Hwf.
Qed.

(** From the empty store of a fresh process, any sequence of requests. *)
Corollary wf_reachable `{Fnmatch} `{JSONCodec} `{JOSE} `{CryptContext}
    (SECRET_KEY : string) (requests : list request) (db0 : Session) :
  wf (redis (serve SECRET_KEY requests (mkApp db0 MockRedis.init))).
Proof. apply wf_serve, wf_init. Qed.

(** * More of the service

    Properties of the store, the cache helpers and the handlers beyond
    the claims above. *)

(** ** The store after the expired keys are removed *)

Lemma for_each_del_both_state (expired : list string) :
  NoDup expired ->
  forall r : MockRedis,
    wf r ->
    (forall key, key ∈ expired -> is_Some (_expires r !! key)) ->
    forall k : string,
      _data (for_each expired MockRedis.del_both r).2 !! k
      = (if decide (k ∈ expired) then None else _data r !! k)
      /\ _expires (for_each expired MockRedis.del_both r).2 !! k
         = (if decide (k ∈ expired) then None else _expires r !! k).
Proof.
  induction 1 as [|key expired Hnotin Hnodup IH]; intros r Hwf Hall k.
  - simpl. destruct (decide (k ∈ [])) as [Hin|_]; [inversion Hin | auto].
  - cbn [for_each]. unfold bind. unfold MockRedis.del_both at 1 3.
    destruct (Hall key) as [t Ht]; [left|].
    destruct (Hwf key) as [v Hv]; [eauto|]. rewrite Hv, Ht.
    set (r1 := mkRedis (delete key (_data r)) (delete key (_expires r))).
    destruct (IH r1) with (k := k) as [Hd He].
    + apply wf_delete, Hwf.
    + intros k' Hk'. simpl. rewrite lookup_delete_ne; [apply Hall; right; exact Hk'|].
      intros ->. exact (Hnotin Hk').
    + rewrite Hd, He. simpl.
      destruct (decide (k = key)) as [->|Hne].
      * rewrite !lookup_delete_eq.
        rewrite !(decide_True (P := key ∈ key :: expired)) by left.
        split; destruct (decide (key ∈ expired)); reflexivity.
      * rewrite !lookup_delete_ne by congruence.
        assert (k ∈ key :: expired <-> k ∈ expired) as Hiff.
        { rewrite elem_of_cons. intuition congruence. }
        rewrite !(decide_ext _ _ _ _ Hiff). auto.
Qed.

Lemma expired_keys_lapsed (now : Z) (r : MockRedis) (k : string) :
  k ∈ (map_to_list (filter (fun kt => kt.2 < now) (_expires r))).*1
  <-> lapsed now r k = true.
Proof.
  unfold lapsed. split.
  - intros Hk. apply list_elem_of_fmap in Hk as ([k' t] & -> & Hin).
    apply elem_of_map_to_list in Hin. apply map_lookup_filter_Some in Hin as [Hin Hlt].
    simpl in *. rewrite Hin. apply Z.ltb_lt, Hlt.
  - destruct (_expires r !! k) as [t|] eqn:He; [|discriminate].
    intros Hlt. apply Z.ltb_lt in Hlt. apply list_elem_of_fmap. exists (k, t).
    split; [reflexivity|]. apply elem_of_map_to_list, map_lookup_filter_Some. auto.
Qed.

(** What [_clean_expired] leaves: the lapsed keys are gone from both
    dictionaries and every other entry is as it was. *)
Lemma clean_expired_state (now : Z) (r : MockRedis) (k : string) :
  wf r ->
  _data (MockRedis._clean_expired now r).2 !! k
  = (if lapsed now r k then None else _data r !! k)
  /\ _expires (MockRedis._clean_expired now r).2 !! k
     = (if lapsed now r k then None else _expires r !! k).
Proof.
  intros Hwf. unfold MockRedis._clean_expired.
  set (expired := (map_to_list (filter (fun kt => kt.2 < now) (_expires r))).*1).
  destruct (for_each_del_both_state expired (NoDup_fst_map_to_list _) r Hwf) with (k := k)
    as [Hd He].
  - intros key Hkey. apply expired_keys_lapsed in Hkey. unfold lapsed in Hkey.
    destruct (_expires r !! key); [eauto | discriminate].
  - rewrite Hd, He. pose proof (expired_keys_lapsed now r k) as Hiff. fold expired in Hiff.
    destruct (decide (k ∈ expired)) as [Hin|Hnin].
    + rewrite (proj1 Hiff Hin). auto.
    + destruct (lapsed now r k); [exfalso; apply Hnin, Hiff; reflexivity | auto].
Qed.

Lemma clean_expired_live (now later : Z) (r : MockRedis) (k : string) :
  wf r -> now <= later ->
  live later (MockRedis._clean_expired now r).2 k = live later r k.
Proof.
  intros Hwf Hlater. destruct (clean_expired_state now r k Hwf) as [Hd He].
  unfold live, lapsed in *. rewrite Hd, He.
  destruct (_expires r !! k) as [t|]; [|reflexivity].
  destruct (t <? now) eqn:Hlt; [|reflexivity].
  apply Z.ltb_lt in Hlt. destruct (t <? later) eqn:Hl2; [reflexivity|].
  apply Z.ltb_ge in Hl2. lia.
Qed.

Lemma clean_expired_none_lapsed (now : Z) (r : MockRedis) (k : string) :
  wf r -> lapsed now (MockRedis._clean_expired now r).2 k = false.
Proof.
  intros Hwf. destruct (clean_expired_state now r k Hwf) as [_ He].
  unfold lapsed in *. rewrite He.
  destruct (_expires r !! k) as [t|]; [|reflexivity].
  destruct (t <? now) eqn:Hlt; [reflexivity | rewrite Hlt; reflexivity].
Qed.

Lemma keys_members `{Fnmatch} (now : Z) (pattern : string) (r : MockRedis) (k : string) :
  wf r ->
  In k (List.filter (fun k => fnmatch k pattern)
          (map_to_list (_data (MockRedis._clean_expired now r).2)).*1)
  <-> is_Some (live now r k) /\ fnmatch k pattern = true.
Proof.
  intros Hwf. rewrite filter_In, <- list_elem_of_In, list_elem_of_fmap.
  destruct (clean_expired_state now r k Hwf) as [Hd _].
  unfold live. split.
  - intros [([k' v] & -> & Hin) Hm]. apply elem_of_map_to_list in Hin.
    simpl in *. rewrite Hd in Hin.
    destruct (lapsed now r k'); [discriminate | eauto].
  - intros [[v Hv] Hm]. split; [|exact Hm]. exists (k, v). split; [reflexivity|].
    apply elem_of_map_to_list. rewrite Hd.
    destruct (lapsed now r k); [discriminate | exact Hv].
Qed.

Lemma keys_nodup `{Fnmatch} (pattern : string) (r : MockRedis) :
  NoDup (List.filter (fun k => fnmatch k pattern) (map_to_list (_data r)).*1).
Proof. apply NoDup_ListNoDup, List.NoDup_filter, NoDup_ListNoDup, NoDup_fst_map_to_list. Qed.

(** X1.  On a store that satisfies the invariant, [keys(pattern)] does
    not raise and lists, without repetition, exactly the keys a reader
    can see at that moment whose name matches the pattern; it leaves no
    lapsed entry behind and changes nothing a reader sees, then or
    later. *)
Theorem keys_lists_live_matches `{Fnmatch} (now : Z) (pattern : string) (r : MockRedis) :
  wf r ->
  exists (ks : list string) (r' : MockRedis),
    MockRedis.keys now pattern r = (Ok ks, r')
    /\ NoDup ks
    /\ (forall k, In k ks <-> is_Some (live now r k) /\ fnmatch k pattern = true)
    /\ (forall k, lapsed now r' k = false)
    /\ (forall k later, now <= later -> live later r' k = live later r k).
Proof.
  intros Hwf. rewrite keys_run by assumption.
  eexists _, _. split; [reflexivity|]. split; [|split; [|split]].
  - apply keys_nodup.
  - intros k. apply keys_members, Hwf.
  - intros k. apply clean_expired_none_lapsed, Hwf.
  - intros k later Hlater. apply clean_expired_live; assumption.
Qed.

Lemma wf_mixed_store : wf mixed_store.
Proof.
  unfold mixed_store.
  apply (wf_set 0 "login_attempts:bob" "2" None).
  apply (wf_setex 0 "user_notifications:1" 1 "[]").
  apply (wf_setex 0 "reset_token:4f9c" 3600 "{}").
  apply wf_init.
Qed.

Lemma keys_lists_live_matches_witness :
  exists (ks : list string) (r' : MockRedis),
    MockRedis.keys (seconds 5) "*" mixed_store = (Ok ks, r')
    /\ NoDup ks
    /\ (forall k, In k ks <-> is_Some (live (seconds 5) mixed_store k)
                             /\ fnmatch k "*" = true)
    /\ (forall k, lapsed (seconds 5) r' k = false)
    /\ (forall k later, seconds 5 <= later -> live later r' k = live later mixed_store k).
Proof. apply (keys_lists_live_matches (seconds 5) "*" mixed_store), wf_mixed_store. Defined.

(** ** Writing and reading back *)

(** X2.  A value stored with [setex(key, time, value)] is what [get]
    answers up to and including [time] seconds later; after that [get]
    answers [None] and the key is gone from the store. *)
Theorem setex_get_round_trip (now later time : Z) (key value : string) (r : MockRedis) :
  let r1 := (MockRedis.setex now key time value r).2 in
  let answer := if now + seconds time <? later then None else Some value in
  (MockRedis.get later key r1).1 = Ok answer
  /\ _data (MockRedis.get later key r1).2 !! key = answer.
Proof.
  unfold MockRedis.setex, MockRedis.expire, bind, ret. simpl.
  rewrite lookup_insert_eq. simpl.
  unfold MockRedis.get. simpl. rewrite lookup_insert_eq.
  destruct (now + seconds time <? later).
  - unfold bind, MockRedis.del_both, ret. simpl. rewrite !lookup_insert_eq. simpl.
    rewrite lookup_delete_eq. auto.
  - simpl. rewrite lookup_insert_eq. auto.
Qed.

(** X3.  [set(key, value)] without [ex] (or with [ex=0]) does not clear
    an expiry the key already has: the new value is readable only until
    the old expiry passes, and is answered [None] after it. *)
Theorem set_keeps_old_expiry (now later : Z) (key value : string) (r : MockRedis) :
  (MockRedis.get later key (MockRedis.set now key value None r).2).1
  = Ok (if lapsed later r key then None else Some value)
  /\ (MockRedis.get later key (MockRedis.set now key value (Some 0) r).2).1
     = Ok (if lapsed later r key then None else Some value)
  /\ _expires (MockRedis.set now key value None r).2 = _expires r.
Proof.
  assert ((MockRedis.get later key (mkRedis (<[key := value]> (_data r)) (_expires r))).1
          = Ok (if lapsed later r key then None else Some value)) as Hget.
  { unfold MockRedis.get, lapsed. simpl.
    destruct (_expires r !! key) as [t|] eqn:He.
    - destruct (t <? later).
      + unfold bind, MockRedis.del_both, ret. simpl. rewrite lookup_insert_eq, He. reflexivity.
      + simpl. rewrite lookup_insert_eq. reflexivity.
    - simpl. rewrite lookup_insert_eq. reflexivity. }
  repeat split; exact Hget.
Qed.

(** X4.  [delete(key)] answers whether the key was stored; afterwards
    [get] answers [None] and [ttl] answers [-2] for it at any time, and
    no other key is touched. *)
Theorem delete_removes_key (key : string) (r : MockRedis) :
  wf r ->
  let out := MockRedis.delete key r in
  out.1 = Ok (bool_decide (is_Some (_data r !! key)))
  /\ (forall now, MockRedis.get now key out.2 = (Ok None, out.2))
  /\ (forall now, MockRedis.ttl now key out.2 = (Ok (-2), out.2))
  /\ (forall k, k <> key ->
        _data out.2 !! k = _data r !! k /\ _expires out.2 !! k = _expires r !! k).
Proof.
  intros Hwf out.
  assert (wf out.2) as Hwf' by (apply wf_delete_op, Hwf).
  assert (_data out.2 !! key = None) as Hgone.
  { unfold out. rewrite delete_data. destruct (decide (key = key)); congruence. }
  split; [|split; [|split]].
  - unfold out, MockRedis.delete. destruct (_data r !! key) eqn:Hd; reflexivity.
  - intros now. apply get_absent; assumption.
  - intros now. unfold MockRedis.ttl. rewrite Hgone. reflexivity.
  - intros k Hne. unfold out, MockRedis.delete.
    destruct (_data r !! key); simpl; [|auto].
    rewrite !lookup_delete_ne by congruence. auto.
Qed.

Lemma delete_removes_key_witness :
  let out := MockRedis.delete "reset_token:4f9c" mixed_store in
  out.1 = Ok (bool_decide (is_Some (_data mixed_store !! "reset_token:4f9c")))
  /\ (forall now, MockRedis.get now "reset_token:4f9c" out.2 = (Ok None, out.2))
  /\ (forall now, MockRedis.ttl now "reset_token:4f9c" out.2 = (Ok (-2), out.2))
  /\ (forall k, k <> "reset_token:4f9c" ->
        _data out.2 !! k = _data mixed_store !! k
        /\ _expires out.2 !! k = _expires mixed_store !! k).
Proof. apply (delete_removes_key "reset_token:4f9c" mixed_store), wf_mixed_store. Defined.

(** X5.  [expire(key, time)] on a stored key answers [True], and [ttl]
    read at once answers [time] (1 when [time] is 0); on a key that is
    not stored it answers [False] and changes nothing. *)
Theorem expire_then_ttl (now time : Z) (key : string) (r : MockRedis) :
  0 <= time ->
  let out := MockRedis.expire now key time r in
  match _data r !! key with
  | Some _ => out.1 = Ok true /\ (MockRedis.ttl now key out.2).1 = Ok (Z.max 1 time)
  | None => out = (Ok false, r)
  end.
Proof.
  intros Htime. unfold MockRedis.expire.
  destruct (_data r !! key) as [v|] eqn:Hd; simpl; [|reflexivity].
  split; [reflexivity|]. unfold MockRedis.ttl. simpl. rewrite Hd, lookup_insert_eq. simpl.
  do 2 f_equal. unfold int_seconds, seconds, usec.
  replace (now + time * 1000000 - now) with (time * 1000000) by lia.
  apply Z.quot_mul. lia.
Qed.

Lemma expire_then_ttl_witness :
  (MockRedis.expire 0 "login_attempts:bob" 900 mixed_store).1 = Ok true
  /\ (MockRedis.ttl 0 "login_attempts:bob"
        (MockRedis.expire 0 "login_attempts:bob" 900 mixed_store).2).1 = Ok 900.
Proof.
  apply (expire_then_ttl 0 900 "login_attempts:bob" mixed_store). lia.
Defined.

(** X6.  Counting with [incr]: on a key that is not stored, the
    [n]-th call answers [n] and stores its decimal numeral, without
    giving the key an expiry. *)
Theorem incr_counts (n : nat) (key : string) (r : MockRedis) :
  _data r !! key = None ->
  let r' := Nat.iter n (fun s => (MockRedis.incr key s).2) r in
  (MockRedis.incr key r').1 = Ok (Z.of_nat n + 1)
  /\ _data (MockRedis.incr key r').2 !! key = Some (str (Z.of_nat n + 1))
  /\ _expires (MockRedis.incr key r').2 = _expires r.
Proof.
  intros Hd.
  assert (forall m : nat,
            _data (Nat.iter m (fun s => (MockRedis.incr key s).2) r) !! key
            = match m with O => None | S _ => Some (str (Z.of_nat m)) end
            /\ _expires (Nat.iter m (fun s => (MockRedis.incr key s).2) r) = _expires r)
    as Hiter.
  { induction m as [|m [IHd IHe]]; [auto|].
    rewrite !Nat.iter_succ.
    set (s := Nat.iter m (fun s => (MockRedis.incr key s).2) r) in *.
    unfold MockRedis.incr. rewrite IHd.
    destruct m as [|m].
    - simpl. rewrite lookup_insert_eq. auto.
    - rewrite int_str. simpl. rewrite lookup_insert_eq. split; [|exact IHe].
      do 2 f_equal. lia. }
  intros r'. destruct (Hiter n) as [Hn He]. fold r' in Hn, He.
  unfold MockRedis.incr. rewrite Hn. destruct n as [|n].
  - simpl. rewrite lookup_insert_eq. auto.
  - rewrite int_str. simpl. rewrite lookup_insert_eq. auto.
Qed.

Lemma incr_counts_witness :
  let r' := Nat.iter 4 (fun s => (MockRedis.incr "rate_limit:10.0.0.7" s).2) mixed_store in
  (MockRedis.incr "rate_limit:10.0.0.7" r').1 = Ok 5
  /\ _data (MockRedis.incr "rate_limit:10.0.0.7" r').2 !! "rate_limit:10.0.0.7" = Some "5"
  /\ _expires (MockRedis.incr "rate_limit:10.0.0.7" r').2 = _expires mixed_store.
Proof.
  apply (incr_counts 4 "rate_limit:10.0.0.7" mixed_store). reflexivity.
Defined.

(** ** The cache helpers *)

Lemma get_after_setex (now later time : Z) (key value : string) (r : MockRedis) :
  (MockRedis.get later key (MockRedis.setex now key time value r).2).1
  = Ok (if now + seconds time <? later then None else Some value).
Proof.
  unfold MockRedis.setex, MockRedis.expire, bind, ret. simpl.
  rewrite lookup_insert_eq. simpl.
  unfold MockRedis.get. simpl. rewrite lookup_insert_eq.
  destruct (now + seconds time <? later).
  - unfold bind, MockRedis.del_both, ret. simpl. rewrite !lookup_insert_eq. reflexivity.
  - simpl. rewrite lookup_insert_eq. reflexivity.
Qed.

Lemma setex_ok (now time : Z) (key value : string) (r : MockRedis) :
  (MockRedis.setex now key time value r).1 = Ok true.
Proof.
  unfold MockRedis.setex, MockRedis.expire, bind, ret. simpl.
  rewrite lookup_insert_eq. reflexivity.
Qed.

Section Cache.

Context `{Fnmatch} `{JSONCodec}.

Lemma cache_data_run (now : Z) (key : string) (data : pyval) (ttl : option Z)
    (r : MockRedis) :
  cache_data now key data ttl r
  = (Ok tt, (MockRedis.setex now key
               (match ttl with Some t => t | None => settings.CACHE_TTL end)
               (json_dumps data) r).2).
Proof.
  unfold cache_data, try_except, bind, ret.
  pose proof (setex_ok now (match ttl with Some t => t | None => settings.CACHE_TTL end)
                key (json_dumps data) r) as Hok.
  destruct (MockRedis.setex now key _ (json_dumps data) r) as [res r1].
  simpl in Hok. subst res. reflexivity.
Qed.

(** X7.  What [cache_data] stores, [get_cached_data] reads back: until
    the TTL has passed it answers what [json.loads] makes of the stored
    text ([None] if the text is empty or does not parse), afterwards
    [None]; neither helper raises. *)
Theorem cache_round_trip (now later : Z) (key : string) (data : pyval)
    (ttl : option Z) (r : MockRedis) :
  let time := match ttl with Some t => t | None => settings.CACHE_TTL end in
  let text := json_dumps data in
  (cache_data now key data ttl r).1 = Ok tt
  /\ (get_cached_data later key (cache_data now key data ttl r).2).1
     = Ok (if now + seconds time <? later then None
           else if truthy_str text then json_loads text else None).
Proof.
  intros time text. rewrite cache_data_run. split; [reflexivity|]. simpl.
  pose proof (get_after_setex now later time key text r) as Hget.
  unfold get_cached_data, try_except, bind. fold time text.
  destruct (MockRedis.get later key (MockRedis.setex now key time text r).2)
    as [res r2]. simpl in Hget. subst res.
  destruct (now + seconds time <? later); [reflexivity|].
  destruct (truthy_str text); [|reflexivity].
  destruct (json_loads text); reflexivity.
Qed.

(** Deleting a list of keys leaves every key outside the list alone. *)
Lemma for_each_delete_frame (keys : list string) (k : string) :
  ~ In k keys ->
  forall r : MockRedis,
    _data (for_each keys (fun key => MockRedis.delete key >> ret tt) r).2 !! k
    = _data r !! k
    /\ _expires (for_each keys (fun key => MockRedis.delete key >> ret tt) r).2 !! k
       = _expires r !! k.
Proof.
  induction keys as [|key keys IH]; intros Hnotin r; [auto|].
  cbn [for_each]. unfold bind.
  assert (key <> k) as Hne by (intros ->; apply Hnotin; left; reflexivity).
  assert (_data (MockRedis.delete key r).2 !! k = _data r !! k
          /\ _expires (MockRedis.delete key r).2 !! k = _expires r !! k) as [Hd He].
  { unfold MockRedis.delete. destruct (_data r !! key); simpl; [|auto].
    rewrite !lookup_delete_ne by assumption. auto. }
  destruct (delete_result key r) as [b Hb].
  destruct (MockRedis.delete key r) as [res r1]. simpl in *. subst res. cbn [ret].
  destruct (IH (fun Hin => Hnotin (or_intror Hin)) r1) as [Hd' He'].
  split; [etransitivity; [exact Hd' | exact Hd] | etransitivity; [exact He' | exact He]].
Qed.

(** X8.  [clear_cache(key)] with a key free of glob characters removes
    that key and nothing else a reader can see: every other key reads,
    then and later, as it did before. *)
Theorem clear_cache_only_that_key (now : Z) (key : string) (r : MockRedis) :
  wf r ->
  truthy_str key = true ->
  glob_free key = true ->
  let out := clear_cache now (Some key) r in
  out.1 = Ok tt
  /\ (forall later, MockRedis.get later key out.2 = (Ok None, out.2))
  /\ (forall k later, k <> key -> now <= later -> live later out.2 k = live later r k).
Proof.
  intros Hwf Htruthy Hfree out.
  destruct (clear_cache_literal now key r Hwf Htruthy Hfree) as [Hok Hgone].
  fold out in Hok, Hgone.
  assert (wf out.2) as Hwf' by (apply wf_clear_cache, Hwf).
  split; [exact Hok|]. split; [intros later; apply get_absent; assumption|].
  intros k later Hne Hlater.
  set (r1 := (MockRedis._clean_expired now r).2).
  set (keys := List.filter (fun k => fnmatch k key) (map_to_list (_data r1)).*1).
  assert (out = for_each keys (fun key => MockRedis.delete key >> ret tt) r1) as ->.
  { unfold out, clear_cache. rewrite Htruthy. unfold bind at 1.
    rewrite keys_run by assumption. reflexivity. }
  assert (~ In k keys) as Hnotin.
  { intros Hin. apply filter_In in Hin as [_ Hm].
    rewrite fnmatch_literal in Hm by assumption.
    apply bool_decide_eq_true_1 in Hm. contradiction. }
  destruct (for_each_delete_frame keys k Hnotin r1) as [Hd He].
  rewrite <- (clean_expired_live now later r k Hwf Hlater). fold r1.
  unfold live, lapsed. rewrite Hd, He. reflexivity.
Qed.

(** X9.  [clear_cache()] without a pattern (or with an empty one) empties
    the whole store, security state included: afterwards no key is
    stored and the throttle check passes for every user name, counters
    of locked-out users being gone. *)
Theorem clear_cache_all_lifts_lockouts (now : Z) (r : MockRedis) :
  clear_cache now None r = (Ok tt, MockRedis.init)
  /\ clear_cache now (Some "") r = (Ok tt, MockRedis.init)
  /\ (forall key later, MockRedis.get later key MockRedis.init = (Ok None, MockRedis.init))
  /\ (forall username later,
        check_login_attempts later username MockRedis.init = (Ok true, MockRedis.init)).
Proof.
  split; [reflexivity|]. split; [reflexivity|]. split.
  - intros key later. apply get_absent; [apply wf_init | apply lookup_empty].
  - intros username later. apply check_login_attempts_absent; apply lookup_empty.
Qed.

(** X10.  [clear_cache_pattern] never raises.  When two different keys a
    reader can see match the pattern, it deletes nothing: [delete] is
    handed several keys at once, which [MockRedis.delete] does not take,
    and the [TypeError] is swallowed.  When exactly one key matches, that
    key is deleted. *)
Theorem clear_cache_pattern_deletes_one_or_nothing (now : Z) (pattern : string)
    (r : MockRedis) :
  wf r ->
  let out := clear_cache_pattern now pattern r in
  out.1 = Ok tt
  /\ (forall k1 k2,
        k1 <> k2 ->
        is_Some (live now r k1) -> fnmatch k1 pattern = true ->
        is_Some (live now r k2) -> fnmatch k2 pattern = true ->
        forall k later, now <= later -> live later out.2 k = live later r k)
  /\ (forall k0,
        (forall k, is_Some (live now r k) /\ fnmatch k pattern = true <-> k = k0) ->
        _data out.2 !! k0 = None).
Proof.
  intros Hwf out.
  pose proof (keys_run now pattern r Hwf) as Hkeys. simpl in Hkeys.
  set (r1 := (MockRedis._clean_expired now r).2) in *.
  pose proof (keys_nodup pattern r1) as Hnodup.
  assert (forall k, In k (List.filter (fun k => fnmatch k pattern)
                            (map_to_list (_data r1)).*1)
                    <-> is_Some (live now r k) /\ fnmatch k pattern = true) as Hks
    by (intros k; apply keys_members, Hwf).
  assert (forall k later, now <= later -> live later r1 k = live later r k) as Hlive
    by (intros k later Hlater; apply clean_expired_live; assumption).
  set (ks := List.filter (fun k => fnmatch k pattern) (map_to_list (_data r1)).*1) in *.
  assert (out = match ks with
                | [k] => (Ok tt, (MockRedis.delete k r1).2)
                | _ => (Ok tt, r1)
                end) as Hout.
  { unfold out, clear_cache_pattern, try_except, bind. rewrite Hkeys.
    destruct ks as [|k [|k' ks]]; try reflexivity.
    unfold delete_star. destruct (delete_result k r1) as [b Hb].
    destruct (MockRedis.delete k r1) as [res r2]. simpl in Hb. subst res. reflexivity. }
  split; [|split].
  - rewrite Hout. destruct ks as [|k [|k' ks]]; reflexivity.
  - intros k1 k2 Hne Hl1 Hm1 Hl2 Hm2 k later Hlater.
    assert (In k1 ks) as Hin1 by (apply Hks; auto).
    assert (In k2 ks) as Hin2 by (apply Hks; auto).
    rewrite Hout. destruct ks as [|k' [|k'' ks]].
    + destruct Hin1.
    + destruct Hin1 as [<-|[]]. destruct Hin2 as [->|[]]. contradiction.
    + simpl. apply Hlive, Hlater.
  - intros k0 Honly.
    assert (In k0 ks) as Hin0 by (apply Hks, Honly; reflexivity).
    assert (forall k, In k ks -> k = k0) as Hall by (intros k Hk; apply Honly, Hks, Hk).
    rewrite Hout. destruct ks as [|k [|k' ks]].
    + destruct Hin0.
    + rewrite (Hall k (or_introl eq_refl)). simpl. rewrite delete_data.
      destruct (decide (k0 = k0)); congruence.
    + exfalso. apply NoDup_cons in Hnodup as [Hnotin _]. apply Hnotin.
      rewrite (Hall k (or_introl eq_refl)), (Hall k' (or_intror (or_introl eq_refl))).
      left.
Qed.

End Cache.

Lemma clear_cache_only_that_key_witness :
  let out := clear_cache 0 (Some "user_notifications:1") mixed_store in
  out.1 = Ok tt
  /\ (forall later, MockRedis.get later "user_notifications:1" out.2 = (Ok None, out.2))
  /\ (forall k later, k <> "user_notifications:1" -> 0 <= later ->
        live later out.2 k = live later mixed_store k).
Proof.
  apply (clear_cache_only_that_key 0 "user_notifications:1" mixed_store).
  - apply wf_mixed_store.
  - reflexivity.
  - reflexivity.
Defined.

Lemma clear_cache_pattern_deletes_one_or_nothing_witness :
  let out := clear_cache_pattern 0 "*" mixed_store in
  out.1 = Ok tt
  /\ (forall k1 k2,
        k1 <> k2 ->
        is_Some (live 0 mixed_store k1) -> fnmatch k1 "*" = true ->
        is_Some (live 0 mixed_store k2) -> fnmatch k2 "*" = true ->
        forall k later, 0 <= later -> live later out.2 k = live later mixed_store k)
  /\ (forall k0,
        (forall k, is_Some (live 0 mixed_store k) /\ fnmatch k "*" = true <-> k = k0) ->
        _data out.2 !! k0 = None).
Proof.
  apply (clear_cache_pattern_deletes_one_or_nothing 0 "*" mixed_store), wf_mixed_store.
Defined.

Example clear_cache_pattern_three_keys :
  let out := clear_cache_pattern 0 "*" mixed_store in
  out = (Ok tt, mixed_store)
  /\ (clear_cache_pattern 0 "reset_token:*" mixed_store).1 = Ok tt
  /\ _data (clear_cache_pattern 0 "reset_token:*" mixed_store).2 !! "reset_token:4f9c" = None.
Proof. vm_compute. repeat split; reflexivity. Qed.

(** ** Counting failed logins *)

(** [increment_login_attempts] on a counter holding [m] failures (a
    missing counter holds 0). *)
Lemma increment_login_attempts_run (now m : Z) (username : string) (r : MockRedis) :
  match _data r !! login_attempts_key username with
  | None => m = 0
  | Some a => int a = Some m
  end ->
  exists r' : MockRedis,
    increment_login_attempts now username r = (Ok tt, r')
    /\ _data r' !! login_attempts_key username = Some (str (m + 1))
    /\ _expires r' !! login_attempts_key username
       = Some (now + minutes settings.LOCKOUT_TIME)
    /\ (wf r -> wf r').
Proof.
  intros Hm. unfold increment_login_attempts, bind, MockRedis.incr, MockRedis.expire, ret.
  destruct (_data r !! login_attempts_key username) as [a|] eqn:Hd.
  - rewrite Hm. simpl. rewrite lookup_insert_eq. eexists. split; [reflexivity|]. simpl.
    rewrite !lookup_insert_eq. split; [reflexivity|]. split; [reflexivity|].
    intros Hwf k Hk. simpl in *. destruct (decide (login_attempts_key username = k)) as [<-|Hne].
    + rewrite lookup_insert_eq. eauto.
    + rewrite lookup_insert_ne in Hk by assumption. rewrite lookup_insert_ne by assumption.
      apply Hwf, Hk.
  - subst m. simpl. rewrite lookup_insert_eq. eexists. split; [reflexivity|]. simpl.
    rewrite !lookup_insert_eq. split; [reflexivity|]. split; [reflexivity|].
    intros Hwf k Hk. simpl in *. destruct (decide (login_attempts_key username = k)) as [<-|Hne].
    + rewrite lookup_insert_eq. eauto.
    + rewrite lookup_insert_ne in Hk by assumption. rewrite lookup_insert_ne by assumption.
      apply Hwf, Hk.
Qed.

(** With fewer than [MAX_LOGIN_ATTEMPTS] failures on record the throttle
    check passes, and the counter it leaves is the one a reader saw. *)
Lemma check_login_attempts_below (now n : Z) (username : string) (r : MockRedis) :
  wf r ->
  failures now r username = Some n ->
  n < settings.MAX_LOGIN_ATTEMPTS ->
  exists r1 : MockRedis,
    check_login_attempts now username r = (Ok true, r1)
    /\ wf r1
    /\ match _data r1 !! login_attempts_key username with
       | None => n = 0
       | Some a => int a = Some n
       end.
Proof.
  intros Hwf Hfail Hn. unfold failures, live in Hfail.
  destruct (lapsed now r (login_attempts_key username)) eqn:Hl.
  - rewrite check_login_attempts_lapsed by assumption. eexists. split; [reflexivity|].
    split; [apply wf_delete, Hwf|]. simpl. rewrite lookup_delete_eq. congruence.
  - exists r. split; [|split; [exact Hwf|]].
    + unfold check_login_attempts, bind. rewrite get_live by assumption.
      destruct (_data r !! login_attempts_key username) as [a|]; [|reflexivity].
      rewrite (int_truthy a n Hfail), Hfail.
      destruct (settings.MAX_LOGIN_ATTEMPTS <=? n) eqn:Hle; [|reflexivity].
      apply Z.leb_le in Hle. lia.
    + destruct (_data r !! login_attempts_key username); congruence.
Qed.

Lemma last_cons_default {A} (l : list A) (x d1 d2 : A) :
  List.last (x :: l) d1 = List.last (x :: l) d2.
Proof.
  revert x. induction l as [|y l IH]; intros x; [reflexivity|].
  change (List.last (y :: l) d1 = List.last (y :: l) d2). apply IH.
Qed.

Section Throttle.

Context `{Fnmatch} `{JSONCodec} `{JOSE} `{CryptContext}.
Variable SECRET_KEY : string.

Lemma failed_login_step (now n : Z) (username password : string) (app : App) :
  wf (redis app) ->
  failures now (redis app) username = Some n ->
  n < settings.MAX_LOGIN_ATTEMPTS ->
  bad_credentials (db app) username password ->
  exists app' : App,
    login SECRET_KEY now username password app
    = (Raise (HTTPException HTTP_401_UNAUTHORIZED "Incorrect username or password"), app')
    /\ _data (redis app') !! login_attempts_key username = Some (str (n + 1))
    /\ _expires (redis app') !! login_attempts_key username
       = Some (now + minutes settings.LOCKOUT_TIME)
    /\ db app' = db app
    /\ wf (redis app').
Proof.
  intros Hwf Hfail Hn Hbad.
  destruct (check_login_attempts_below now n username (redis app) Hwf Hfail Hn)
    as (r1 & Hc & Hwf1 & Hm).
  destruct (increment_login_attempts_run now n username r1 Hm)
    as (r2 & Hinc & Hd & He & Hwf2).
  exists (mkApp (db app) r2). split; [|simpl; auto].
  unfold bad_credentials in Hbad.
  unfold login, bind, on_redis, get_db, raise. rewrite Hc. simpl.
  destruct (user_by_username (db app) username) as [user|]; simpl.
  - rewrite Hbad. simpl. rewrite Hinc. reflexivity.
  - rewrite Hinc. reflexivity.
Qed.

(** X11.  A login with a wrong password or an unknown user name, made
    while fewer than [MAX_LOGIN_ATTEMPTS] failures are on record, is
    answered 401, raises the recorded number by exactly one and makes the
    counter expire [LOCKOUT_TIME] minutes after this attempt, whatever
    its expiry was; the database is not touched. *)
Theorem failed_login_counts_one (now n : Z) (username password : string) (app : App) :
  wf (redis app) ->
  failures now (redis app) username = Some n ->
  n < settings.MAX_LOGIN_ATTEMPTS ->
  bad_credentials (db app) username password ->
  let out := login SECRET_KEY now username password app in
  out.1 = Raise (HTTPException HTTP_401_UNAUTHORIZED "Incorrect username or password")
  /\ db out.2 = db app
  /\ forall later,
       failures later (redis out.2) username
       = Some (if now + minutes settings.LOCKOUT_TIME <? later then 0 else n + 1).
Proof.
  intros Hwf Hfail Hn Hbad.
  destruct (failed_login_step now n username password app Hwf Hfail Hn Hbad)
    as (app' & Hlogin & Hd & He & Hdb & _).
  intros out. unfold out. rewrite Hlogin. simpl.
  split; [reflexivity|]. split; [exact Hdb|].
  intros later. unfold failures, live, lapsed. rewrite He, Hd.
  destruct (now + minutes settings.LOCKOUT_TIME <? later); [reflexivity | apply int_str].
Qed.

(** After [count] failures recorded at [prev], a further chain of failed
    logins, each within the window of the one before. *)
Lemma failures_accumulate (username password : string) (times : list Z) :
  forall (app : App) (count : nat) (prev : Z),
    wf (redis app) ->
    _data (redis app) !! login_attempts_key username = Some (str (Z.of_nat count)) ->
    _expires (redis app) !! login_attempts_key username
    = Some (prev + minutes settings.LOCKOUT_TIME) ->
    bad_credentials (db app) username password ->
    window_chain prev times ->
    Z.of_nat (count + length times) <= settings.MAX_LOGIN_ATTEMPTS ->
    let app' := serve SECRET_KEY (map (fun t => Login t username password) times) app in
    wf (redis app')
    /\ _data (redis app') !! login_attempts_key username
       = Some (str (Z.of_nat (count + length times)))
    /\ _expires (redis app') !! login_attempts_key username
       = Some (List.last times prev + minutes settings.LOCKOUT_TIME)
    /\ db app' = db app.
Proof.
  induction times as [|t times IH]; intros app count prev Hwf Hd He Hbad Hchain Hmax.
  - simpl. rewrite Nat.add_0_r. auto.
  - destruct Hchain as [Ht Hchain]. simpl in Hmax.
    destruct (failed_login_step t (Z.of_nat count) username password app) as
      (app1 & Hlogin & Hd1 & He1 & Hdb1 & Hwf1); try assumption.
    + unfold failures, live, lapsed. rewrite He, Hd.
      destruct (prev + minutes settings.LOCKOUT_TIME <? t) eqn:Hlt;
        [apply Z.ltb_lt in Hlt; lia | apply int_str].
    + lia.
    + cbn [map]. unfold serve. cbn [fold_left]. fold (serve SECRET_KEY).
      replace (handle SECRET_KEY (Login t username password) app) with app1
        by (simpl; rewrite Hlogin; reflexivity).
      destruct (IH app1 (S count) t) as (Hwf' & Hd' & He' & Hdb'); try assumption.
      * rewrite Hd1. do 2 f_equal. lia.
      * unfold bad_credentials. rewrite Hdb1. exact Hbad.
      * lia.
      * unfold serve in Hwf', Hd', He', Hdb'.
        split; [exact Hwf'|]. split; [|split].
        -- rewrite Hd'. do 3 f_equal. simpl. lia.
        -- rewrite He'. f_equal. f_equal.
           destruct times as [|z times]; [reflexivity | exact (last_cons_default times z t prev)].
        -- congruence.
Qed.

(** X12.  Starting with no counter, [MAX_LOGIN_ATTEMPTS] failed logins
    for a user name, each at most [LOCKOUT_TIME] minutes after the one
    before, lock the name: from then until [LOCKOUT_TIME] minutes after
    the last failure every login for it is answered 429 and changes
    nothing, whatever password it carries. *)
Theorem lockout_after_max_failures (username password : string) (first : Z)
    (times : list Z) (app : App) :
  wf (redis app) ->
  _data (redis app) !! login_attempts_key username = None ->
  bad_credentials (db app) username password ->
  window_chain first times ->
  Z.of_nat (length (first :: times)) = settings.MAX_LOGIN_ATTEMPTS ->
  let locked :=
    serve SECRET_KEY (map (fun t => Login t username password) (first :: times)) app in
  forall now any_password,
    now <= List.last times first + minutes settings.LOCKOUT_TIME ->
    login SECRET_KEY now username any_password locked
    = (Raise (HTTPException HTTP_429_TOO_MANY_REQUESTS
                "Too many login attempts. Please try again later."), locked).
Proof.
  intros Hwf Hd Hbad Hchain Hlen locked now any_password Hnow.
  destruct (failed_login_step first 0 username password app) as
    (app1 & Hlogin & Hd1 & He1 & Hdb1 & Hwf1); try assumption.
  { unfold failures, live. rewrite Hd.
    destruct (lapsed first (redis app) (login_attempts_key username)); reflexivity. }
  { unfold settings.MAX_LOGIN_ATTEMPTS. lia. }
  assert (locked = serve SECRET_KEY (map (fun t => Login t username password) times) app1)
    as Hlocked.
  { unfold locked, serve. cbn [map fold_left]. simpl handle. rewrite Hlogin. reflexivity. }
  destruct (failures_accumulate username password times app1 1 first)
    as (Hwf' & Hd' & He' & _); try assumption.
  { unfold bad_credentials. rewrite Hdb1. exact Hbad. }
  { simpl in Hlen. lia. }
  rewrite <- Hlocked in Hwf', Hd', He'.
  destruct locked as [d r]. simpl in *.
  unfold login, bind, on_redis. simpl.
  rewrite (check_login_attempts_locked now username
             (str (Z.of_nat (1 + length times))) (Z.of_nat (1 + length times)) r).
  - reflexivity.
  - unfold lapsed. rewrite He'. apply Z.ltb_ge. lia.
  - exact Hd'.
  - apply int_str.
  - lia.
Qed.

(** X13.  [login] answers an unknown user name exactly as it answers a
    wrong password for a known one: the same result and the same store
    afterwards, so the answer does not tell whether the name exists. *)
Theorem login_hides_user_existence (now : Z) (username password : string)
    (db1 db2 : Session) (r : MockRedis) (user : User.t) :
  user_by_username db1 username = None ->
  user_by_username db2 username = Some user ->
  verify_password password (User.hashed_password user) = false ->
  (login SECRET_KEY now username password (mkApp db1 r)).1
  = (login SECRET_KEY now username password (mkApp db2 r)).1
  /\ redis (login SECRET_KEY now username password (mkApp db1 r)).2
     = redis (login SECRET_KEY now username password (mkApp db2 r)).2.
Proof.
  intros Hnone Hsome Hbad. unfold login, bind, on_redis, get_db, raise. simpl.
  destruct (check_login_attempts now username r) as [[allowed|e] r1]; [|auto].
  destruct allowed; simpl; [|auto].
  rewrite Hnone, Hsome, Hbad. simpl.
  destruct (increment_login_attempts now username r1) as [[[]|e] r2]; auto.
Qed.

End Throttle.

Lemma failed_login_counts_one_witness :
  let app := Scenario.failed_logins 2 "alice" Scenario.app0 in
  let out := login Scenario.secret (seconds 3) "alice" "guess" app in
  out.1 = Raise (HTTPException HTTP_401_UNAUTHORIZED "Incorrect username or password")
  /\ db out.2 = db app
  /\ forall later,
       failures later (redis out.2) "alice"
       = Some (if seconds 3 + minutes settings.LOCKOUT_TIME <? later then 0 else 2 + 1).
Proof.
  apply (failed_login_counts_one Scenario.secret (seconds 3) 2 "alice" "guess"
           (Scenario.failed_logins 2 "alice" Scenario.app0)).
  - apply wf_failed_logins, wf_init.
  - vm_compute. reflexivity.
  - unfold settings.MAX_LOGIN_ATTEMPTS. lia.
  - vm_compute. reflexivity.
Defined.

(** Five wrong passwords five minutes apart; the right password is
    refused ten minutes after the fifth. *)
Lemma lockout_after_max_failures_witness :
  let times := [minutes 5; minutes 10; minutes 15; minutes 20] in
  let locked :=
    serve Scenario.secret (map (fun t => Login t "alice" "guess") (0 :: times))
      Scenario.app0 in
  login Scenario.secret (minutes 30) "alice" "Sw0rd!x" locked
  = (Raise (HTTPException HTTP_429_TOO_MANY_REQUESTS
              "Too many login attempts. Please try again later."), locked).
Proof.
  apply (lockout_after_max_failures Scenario.secret "alice" "guess" 0
           [minutes 5; minutes 10; minutes 15; minutes 20] Scenario.app0).
  - apply wf_init.
  - reflexivity.
  - vm_compute. reflexivity.
  - vm_compute. repeat split; discriminate.
  - reflexivity.
  - vm_compute. discriminate.
Defined.

Lemma login_hides_user_existence_witness :
  let without_alice := mkSession [Scenario.bob] [] in
  (login Scenario.secret 0 "alice" "guess" (mkApp without_alice MockRedis.init)).1
  = (login Scenario.secret 0 "alice" "guess" (mkApp (db Scenario.app0) MockRedis.init)).1
  /\ redis (login Scenario.secret 0 "alice" "guess" (mkApp without_alice MockRedis.init)).2
     = redis (login Scenario.secret 0 "alice" "guess"
                (mkApp (db Scenario.app0) MockRedis.init)).2.
Proof.
  apply (login_hides_user_existence Scenario.secret 0 "alice" "guess"
           (mkSession [Scenario.bob] []) (db Scenario.app0) MockRedis.init Scenario.alice).
  - reflexivity.
  - reflexivity.
  - vm_compute. reflexivity.
Defined.

(** ** What [login] leaves alone *)

Lemma entry_get (now : Z) (key k : string) (e : option string * option Z) :
  k <> key -> preserves (fun r => entry k r = e) (MockRedis.get now key).
Proof.
  intros Hne r Hr. unfold MockRedis.get.
  destruct (_expires r !! key) as [t|] eqn:He; [|exact Hr].
  destruct (t <? now); [|exact Hr].
  unfold bind, MockRedis.del_both. rewrite He.
  destruct (_data r !! key); [|exact Hr]. simpl.
  unfold entry in *. simpl. rewrite !lookup_delete_ne by congruence. exact Hr.
Qed.

Lemma entry_incr (key k : string) (e : option string * option Z) :
  k <> key -> preserves (fun r => entry k r = e) (MockRedis.incr key).
Proof.
  intros Hne r Hr. unfold MockRedis.incr.
  destruct (_data r !! key) as [a|]; [destruct (int a)|]; simpl; try exact Hr;
    unfold entry in *; simpl; rewrite lookup_insert_ne by congruence; exact Hr.
Qed.

Lemma entry_expire (now time : Z) (key k : string) (e : option string * option Z) :
  k <> key -> preserves (fun r => entry k r = e) (MockRedis.expire now key time).
Proof.
  intros Hne r Hr. unfold MockRedis.expire.
  destruct (_data r !! key); simpl; [|exact Hr].
  unfold entry in *. simpl. rewrite lookup_insert_ne by congruence. exact Hr.
Qed.

Lemma entry_delete (key k : string) (e : option string * option Z) :
  k <> key -> preserves (fun r => entry k r = e) (MockRedis.delete key).
Proof.
  intros Hne r Hr. unfold MockRedis.delete.
  destruct (_data r !! key); simpl; [|exact Hr].
  unfold entry in *. simpl. rewrite !lookup_delete_ne by congruence. exact Hr.
Qed.

Lemma login_attempts_key_inj (a b : string) :
  login_attempts_key a = login_attempts_key b -> a = b.
Proof. unfold login_attempts_key. simpl. intros [= E]. exact E. Qed.

Section LoginFrame.

Context `{JOSE} `{CryptContext}.
Variable SECRET_KEY : string.

(** [login] keeps every property of the store that the four operations
    on the counter key keep. *)
Lemma login_preserves (P : MockRedis -> Prop) (now : Z) (username password : string) :
  preserves P (MockRedis.get now (login_attempts_key username)) ->
  preserves P (MockRedis.incr (login_attempts_key username)) ->
  preserves P (MockRedis.expire now (login_attempts_key username)
                 (settings.LOCKOUT_TIME * 60)) ->
  preserves P (MockRedis.delete (login_attempts_key username)) ->
  preserves (fun a => P (redis a)) (login SECRET_KEY now username password).
Proof.
  intros Hget Hincr Hexpire Hdelete.
  assert (Hinc : preserves (fun a => P (redis a))
                   (on_redis (increment_login_attempts now username))).
  { apply preserves_on_redis. unfold increment_login_attempts.
    apply preserves_bind; [exact Hincr | intros _].
    apply preserves_bind; [exact Hexpire | intros _]. apply preserves_ret. }
  unfold login. apply preserves_bind.
  - apply preserves_on_redis. unfold check_login_attempts.
    apply preserves_bind; [exact Hget|]. intros [a|]; [|apply preserves_ret].
    destruct (truthy_str a); [|apply preserves_ret].
    destruct (int a) as [n|]; [|apply preserves_raise].
    destruct (settings.MAX_LOGIN_ATTEMPTS <=? n); apply preserves_ret.
  - intros allowed. destruct (negb allowed); [apply preserves_raise|].
    apply preserves_bind; [intros a Ha; exact Ha|]. intros d.
    destruct (user_by_username d username) as [user|].
    + destruct (negb (verify_password password (User.hashed_password user))).
      * apply preserves_bind; [exact Hinc | intros; apply preserves_raise].
      * destruct (negb (User.is_active user)); [apply preserves_raise|].
        apply preserves_bind.
        -- apply preserves_on_redis. unfold reset_login_attempts.
           apply preserves_bind; [exact Hdelete | intros; apply preserves_ret].
        -- intros _. apply preserves_bind; [intros a Ha; exact Ha|].
           intros; apply preserves_ret.
    + apply preserves_bind; [exact Hinc | intros; apply preserves_raise].
Qed.

(** X14.  Whatever it answers, [login] for a user name changes no entry
    of the store other than the counter of that name: the counters of
    all other names, the reset tokens and the cache entries keep their
    values and expiries. *)
Theorem login_touches_only_own_counter (now : Z) (username password : string)
    (app : App) (k : string) :
  k <> login_attempts_key username ->
  let app' := (login SECRET_KEY now username password app).2 in
  _data (redis app') !! k = _data (redis app) !! k
  /\ _expires (redis app') !! k = _expires (redis app) !! k.
Proof.
  intros Hne app'.
  assert (entry k (redis app') = entry k (redis app)) as Hentry.
  { apply (login_preserves (fun r => entry k r = entry k (redis app))).
    - apply entry_get, Hne.
    - apply entry_incr, Hne.
    - apply entry_expire, Hne.
    - apply entry_delete, Hne.
    - reflexivity. }
  unfold entry in Hentry. injection Hentry as Hd He. auto.
Qed.

Lemma rows_unique (rows : list User.t) (u v : User.t) :
  List.NoDup (map User.id rows) -> In u rows -> In v rows ->
  User.id u = User.id v -> u = v.
Proof.
  induction rows as [|w rows IH]; intros Hnodup Hu Hv Hid; [destruct Hu|].
  simpl in Hnodup. apply List.NoDup_cons_iff in Hnodup as [Hnotin Hnodup].
  destruct Hu as [->|Hu], Hv as [->|Hv]; [reflexivity | | | auto].
  - exfalso. apply Hnotin. rewrite Hid. apply in_map, Hv.
  - exfalso. apply Hnotin. rewrite <- Hid. apply in_map, Hu.
Qed.

Lemma commit_user_credentials (user user' : User.t) (d : Session) :
  List.NoDup (map User.id (users d)) ->
  In user (users d) ->
  User.id user' = User.id user ->
  credentials user' = credentials user ->
  map credentials (users (commit_user user' d)) = map credentials (users d).
Proof.
  intros Hnodup Hin Hid Hcred. unfold commit_user. simpl. rewrite map_map.
  apply map_ext_in. intros u Hu.
  destruct (User.id u =? User.id user') eqn:Heq; [|reflexivity].
  apply Z.eqb_eq in Heq. rewrite Hcred. f_equal.
  apply (rows_unique (users d)); auto. congruence.
Qed.

(** X15.  Whatever it answers, [login] leaves every credential as it
    was: ids, user names, e-mail addresses, password hashes and active
    flags of all rows are unchanged (only [last_login] may differ), and
    so are the notifications. *)
Theorem login_keeps_credentials (now : Z) (username password : string) (app : App) :
  List.NoDup (map User.id (users (db app))) ->
  let app' := (login SECRET_KEY now username password app).2 in
  map credentials (users (db app')) = map credentials (users (db app))
  /\ notifications (db app') = notifications (db app).
Proof.
  intros Hnodup. unfold login, bind, on_redis, get_db, set_db, raise, ret.
  destruct (check_login_attempts now username (redis app)) as [[allowed|e] r1]; [|auto].
  destruct allowed; simpl; [|auto].
  destruct (user_by_username (db app) username) as [user|] eqn:Hu; simpl.
  - destruct (verify_password password (User.hashed_password user)); simpl.
    + destruct (User.is_active user) eqn:Ha; simpl; [|auto].
      destruct (reset_login_attempts username r1) as [[u|e] r2]; simpl; [|auto].
      split; [|reflexivity].
      change (map credentials
                (users (commit_user
                          (User.mk (User.id user) (User.username user) (User.email user)
                                   (User.hashed_password user) true (Some now))
                          (db app)))
              = map credentials (users (db app))).
      apply commit_user_credentials with (user := user).
      * assumption.
      * unfold user_by_username in Hu. apply find_some in Hu as [Hin _]. exact Hin.
      * reflexivity.
      * unfold credentials. simpl. rewrite Ha. reflexivity.
    + destruct (increment_login_attempts now username r1) as [[u|e] r2]; auto.
  - destruct (increment_login_attempts now username r1) as [[u|e] r2]; auto.
Qed.

End LoginFrame.

Lemma login_touches_only_own_counter_witness :
  let app := Scenario.failed_logins 5 "bob" Scenario.app0 in
  let app' := (login Scenario.secret (seconds 6) "alice" "guess" app).2 in
  _data (redis app') !! login_attempts_key "bob"
  = _data (redis app) !! login_attempts_key "bob"
  /\ _expires (redis app') !! login_attempts_key "bob"
     = _expires (redis app) !! login_attempts_key "bob".
Proof.
  apply (login_touches_only_own_counter Scenario.secret (seconds 6) "alice" "guess"
           (Scenario.failed_logins 5 "bob" Scenario.app0) (login_attempts_key "bob")).
  intros E. apply login_attempts_key_inj in E. discriminate.
Defined.

Lemma login_keeps_credentials_witness :
  let app' := (login Scenario.secret (seconds 1) "alice" "Sw0rd!x" Scenario.app0).2 in
  map credentials (users (db app')) = map credentials (users (db Scenario.app0))
  /\ notifications (db app') = notifications (db Scenario.app0).
Proof.
  apply (login_keeps_credentials Scenario.secret (seconds 1) "alice" "Sw0rd!x" Scenario.app0).
  simpl. repeat constructor; simpl; intuition discriminate.
Defined.

(** ** The lifetime of tokens *)

Lemma timegm_next_second (a b : Z) : a + seconds 1 <= b -> timegm a < timegm b.
Proof.
  intros Hab. apply Z.lt_le_trans with (timegm (a + seconds 1)).
  - unfold timegm, seconds, usec.
    replace (a + 1 * 1000000) with (a + 1 * 1000000) by reflexivity.
    rewrite Z.div_add by lia. lia.
  - apply timegm_mono, Hab.
Qed.

Section TokenLifetime.

Context `{JOSE}.
Variable SECRET_KEY : string.

(** X16.  The refresh token [login] issues, presented to [refresh_token]
    within [REFRESH_TOKEN_EXPIRE_DAYS] while the user still exists,
    yields a new pair issued at that moment for the same user name. *)
Theorem refresh_round_trip (now later : Z) (username : string) (db : Session)
    (user : User.t) :
  later <= now + days settings.REFRESH_TOKEN_EXPIRE_DAYS ->
  user_by_username db username = Some user ->
  refresh_token SECRET_KEY later
    (Some (Token.refresh_token (bearer_pair SECRET_KEY now username))) db
  = Ok (bearer_pair SECRET_KEY later username).
Proof.
  intros Hlater Hu.
  assert (User.username user = username) as Hname.
  { unfold user_by_username in Hu. apply find_some in Hu as [_ Heq].
    apply String.eqb_eq, Heq. }
  simpl. unfold create_refresh_token, refresh_token.
  rewrite (jwt_decode_encode SECRET_KEY later
             (timegm (now + days settings.REFRESH_TOKEN_EXPIRE_DAYS)) username).
  - pose proof (timegm_mono _ _ Hlater) as Hle.
    destruct (timegm (now + days settings.REFRESH_TOKEN_EXPIRE_DAYS) <? timegm later)
      eqn:Hlt; [apply Z.ltb_lt in Hlt; lia|].
    rewrite !lookup_insert_ne by discriminate. rewrite lookup_singleton_eq.
    rewrite lookup_insert_eq. simpl. rewrite Hu, Hname. reflexivity.
  - rewrite lookup_insert_ne by discriminate. apply lookup_insert_eq.
  - rewrite !lookup_insert_ne by discriminate. apply lookup_singleton_eq.
Qed.

(** X17.  The tokens [login] issues stop working: from one second past
    [ACCESS_TOKEN_EXPIRE_MINUTES] the access token is refused by
    [get_current_user], and from one second past
    [REFRESH_TOKEN_EXPIRE_DAYS] the refresh token is refused by
    [refresh_token] and by [get_current_user], even for a user who
    exists. *)
Theorem issued_tokens_expire (now later : Z) (username : string) (db : Session) :
  (now + minutes settings.ACCESS_TOKEN_EXPIRE_MINUTES + seconds 1 <= later ->
   get_current_user SECRET_KEY later
     (Token.access_token (bearer_pair SECRET_KEY now username)) db
   = Raise credentials_exception)
  /\ (now + days settings.REFRESH_TOKEN_EXPIRE_DAYS + seconds 1 <= later ->
      refresh_token SECRET_KEY later
        (Some (Token.refresh_token (bearer_pair SECRET_KEY now username))) db
      = Raise (HTTPException HTTP_401_UNAUTHORIZED "Could not validate credentials")
      /\ get_current_user SECRET_KEY later
           (Token.refresh_token (bearer_pair SECRET_KEY now username)) db
         = Raise credentials_exception).
Proof.
  split.
  - intros Hlater. apply timegm_next_second in Hlater. apply Z.ltb_lt in Hlater.
    simpl. unfold create_access_token, get_current_user, token_subject.
    replace (minutes settings.ACCESS_TOKEN_EXPIRE_MINUTES =? 0) with false by reflexivity.
    rewrite (jwt_decode_encode SECRET_KEY later
               (timegm (now + minutes settings.ACCESS_TOKEN_EXPIRE_MINUTES)) username).
    + rewrite Hlater. reflexivity.
    + apply lookup_insert_eq.
    + rewrite lookup_insert_ne by discriminate. apply lookup_singleton_eq.
  - intros Hlater. apply timegm_next_second in Hlater. apply Z.ltb_lt in Hlater.
    simpl. unfold create_refresh_token, refresh_token, get_current_user, token_subject.
    rewrite (jwt_decode_encode SECRET_KEY later
               (timegm (now + days settings.REFRESH_TOKEN_EXPIRE_DAYS)) username).
    + rewrite Hlater. split; reflexivity.
    + rewrite lookup_insert_ne by discriminate. apply lookup_insert_eq.
    + rewrite !lookup_insert_ne by discriminate. apply lookup_singleton_eq.
Qed.

End TokenLifetime.

Lemma refresh_round_trip_witness :
  refresh_token Scenario.secret (days 6)
    (Some (Token.refresh_token (bearer_pair Scenario.secret 0 "alice")))
    (db Scenario.app0)
  = Ok (bearer_pair Scenario.secret (days 6) "alice").
Proof.
  apply (refresh_round_trip Scenario.secret 0 (days 6) "alice" (db Scenario.app0)
           Scenario.alice).
  - vm_compute. discriminate.
  - reflexivity.
Defined.

Lemma issued_tokens_expire_witness :
  get_current_user Scenario.secret (minutes 30 + seconds 1)
    (Token.access_token (bearer_pair Scenario.secret 0 "alice")) (db Scenario.app0)
  = Raise credentials_exception
  /\ refresh_token Scenario.secret (days 7 + seconds 1)
       (Some (Token.refresh_token (bearer_pair Scenario.secret 0 "alice")))
       (db Scenario.app0)
     = Raise (HTTPException HTTP_401_UNAUTHORIZED "Could not validate credentials").
Proof.
  split.
  - apply (proj1 (issued_tokens_expire Scenario.secret 0 (minutes 30 + seconds 1) "alice"
                    (db Scenario.app0))).
    vm_compute. discriminate.
  - apply (proj2 (issued_tokens_expire Scenario.secret 0 (days 7 + seconds 1) "alice"
                    (db Scenario.app0))).
    vm_compute. discriminate.
Defined.

(** ** The reset token from request to redemption *)

Section ResetFlow.

Context `{JSONCodec} `{CryptContext}.

Lemma request_password_reset_run (now : Z) (uuid email : string) (app : App)
    (user : User.t) :
  user_by_email (db app) email = Some user ->
  request_password_reset now uuid email app
  = (Ok "Password reset email sent",
     mkApp (db app)
       (mkRedis (<[reset_token_key uuid :=
                    json_dumps (PDict [("user_id", PInt (User.id user))])]>
                   (_data (redis app)))
                (<[reset_token_key uuid := now + seconds 3600]> (_expires (redis app))))).
Proof.
  intros Hu. unfold request_password_reset, bind, get_db, on_redis, ret. rewrite Hu.
  unfold MockRedis.setex, MockRedis.expire, bind, ret. simpl.
  rewrite lookup_insert_eq. reflexivity.
Qed.

(** X18.  A token requested for the e-mail address of a user and
    redeemed within the hour sets the password hash of exactly that user
    to the hash of the new password, provided [json.loads] reads back
    the non-empty text [json.dumps] wrote for the token. *)
Theorem reset_round_trip (now later : Z) (uuid email salt new_password : string)
    (app : App) (user : User.t) :
  user_by_email (db app) email = Some user ->
  user_by_id (db app) (User.id user) = Some user ->
  json_loads (json_dumps (PDict [("user_id", PInt (User.id user))]))
  = Some (PDict [("user_id", PInt (User.id user))]) ->
  truthy_str (json_dumps (PDict [("user_id", PInt (User.id user))])) = true ->
  later <= now + seconds 3600 ->
  let issued := (request_password_reset now uuid email app).2 in
  exists app' : App,
    reset_password later salt uuid new_password issued
    = (Ok "Password reset successful", app')
    /\ user_by_id (db app') (User.id user)
       = Some (User.mk (User.id user) (User.username user) (User.email user)
                       (get_password_hash salt new_password)
                       (User.is_active user) (User.last_login user))
    /\ _data (redis app') !! reset_token_key uuid = None.
Proof.
  intros Hemail Hid Hloads Htruthy Hlater issued.
  unfold issued. rewrite (request_password_reset_run now uuid email app user Hemail). simpl.
  unfold reset_password, bind, on_redis, get_db, set_db, ret. simpl.
  unfold MockRedis.get. simpl. rewrite lookup_insert_eq.
  destruct (now + seconds 3600 <? later) eqn:Hlt; [apply Z.ltb_lt in Hlt; lia|].
  simpl. rewrite lookup_insert_eq. simpl. rewrite Htruthy. simpl. rewrite Hloads. simpl.
  rewrite Hid. simpl. unfold MockRedis.delete. simpl. rewrite lookup_insert_eq. simpl.
  eexists. split; [reflexivity|]. simpl. split; [|apply lookup_delete_eq].
  apply (user_by_id_commit (db app) user
           (User.mk (User.id user) (User.username user) (User.email user)
                    (get_password_hash salt new_password)
                    (User.is_active user) (User.last_login user))).
  exact Hid.
Qed.

(** X19.  A reset token is refused once its hour has passed: redeeming
    it later than 3600 seconds after the request answers 400 "Invalid or
    expired token", leaves the database as it was and removes the token
    from the store. *)
Theorem reset_token_expires (now later : Z) (uuid email salt new_password : string)
    (app : App) (user : User.t) :
  user_by_email (db app) email = Some user ->
  now + seconds 3600 < later ->
  let issued := (request_password_reset now uuid email app).2 in
  let out := reset_password later salt uuid new_password issued in
  out.1 = Raise invalid_or_expired
  /\ db out.2 = db app
  /\ _data (redis out.2) !! reset_token_key uuid = None.
Proof.
  intros Hemail Hlater issued.
  unfold issued. rewrite (request_password_reset_run now uuid email app user Hemail). simpl.
  unfold reset_password, bind, on_redis. simpl.
  unfold MockRedis.get. simpl. rewrite lookup_insert_eq.
  apply Z.ltb_lt in Hlater. rewrite Hlater.
  unfold bind, MockRedis.del_both, ret. simpl. rewrite !lookup_insert_eq. simpl.
  rewrite lookup_delete_eq. auto.
Qed.

(** X20.  A redemption that fails, for whatever reason, changes no row
    of the database: credentials are replaced by a successful
    [reset_password] and by nothing else it does. *)
Theorem failed_reset_keeps_database (now : Z) (salt token new_password : string)
    (app : App) (e : exn) :
  (reset_password now salt token new_password app).1 = Raise e ->
  db (reset_password now salt token new_password app).2 = db app.
Proof.
  destruct app as [d r]. unfold reset_password, bind, on_redis, get_db, set_db, raise, ret.
  simpl. destruct (MockRedis.get now (reset_token_key token) r) as [[token_data|e0] r1];
    simpl; [|auto].
  destruct token_data as [text|]; simpl; [|auto].
  destruct (truthy_str text); simpl; [|auto].
  destruct (json_loads text) as [v|]; simpl; [|auto].
  destruct (subscript v "user_id") as [uid|e1]; simpl; [|auto].
  destruct uid as [| | id | | | |]; simpl; auto.
  destruct (user_by_id d id) as [row|]; simpl; [|auto].
  destruct (delete_result (reset_token_key token) r1) as [b Hb].
  destruct (MockRedis.delete (reset_token_key token) r1) as [res r2]. simpl in Hb.
  subst res. simpl. discriminate.
Qed.

End ResetFlow.

Lemma reset_round_trip_witness :
  let issued := (request_password_reset 0 "4f9c" "alice@example.com" Scenario.app0).2 in
  exists app' : App,
    reset_password (seconds 60) "s9" "4f9c" "NewPass1!" issued
    = (Ok "Password reset successful", app')
    /\ user_by_id (db app') 1
       = Some (User.mk 1 "alice" "alice@example.com"
                       (get_password_hash "s9" "NewPass1!") true None)
    /\ _data (redis app') !! reset_token_key "4f9c" = None.
Proof.
  apply (reset_round_trip 0 (seconds 60) "4f9c" "alice@example.com" "s9" "NewPass1!"
           Scenario.app0 Scenario.alice).
  - reflexivity.
  - reflexivity.
  - vm_compute. reflexivity.
  - reflexivity.
  - vm_compute. discriminate.
Defined.

Lemma reset_token_expires_witness :
  let issued := (request_password_reset 0 "4f9c" "alice@example.com" Scenario.app0).2 in
  let out := reset_password (seconds 3601) "s9" "4f9c" "NewPass1!" issued in
  out.1 = Raise invalid_or_expired
  /\ db out.2 = db Scenario.app0
  /\ _data (redis out.2) !! reset_token_key "4f9c" = None.
Proof.
  apply (reset_token_expires 0 (seconds 3601) "4f9c" "alice@example.com" "s9" "NewPass1!"
           Scenario.app0 Scenario.alice).
  - reflexivity.
  - vm_compute. reflexivity.
Defined.

Lemma failed_reset_keeps_database_witness :
  let issued := (request_password_reset 0 "4f9c" "alice@example.com" Scenario.app0).2 in
  db (reset_password (seconds 60) "s9" "0000" "NewPass1!" issued).2 = db issued.
Proof.
  apply (failed_reset_keeps_database (seconds 60) "s9" "0000" "NewPass1!"
           (request_password_reset 0 "4f9c" "alice@example.com" Scenario.app0).2
           invalid_or_expired).
  vm_compute. reflexivity.
Defined.

(** ** Reading, marking and deleting notifications *)

Lemma find_commit_notification (p : Notification.t -> bool) (n n' : Notification.t)
    (rows : list Notification.t) :
  List.find p rows = Some n ->
  Notification.id n' = Notification.id n ->
  p n' = true ->
  List.find p (map (fun m => if Notification.id m =? Notification.id n' then n' else m) rows)
  = Some n'.
Proof.
  intros Hfind Hid Hp. induction rows as [|m rows IH]; simpl in *; [discriminate|].
  destruct (Notification.id m =? Notification.id n') eqn:Heq.
  - rewrite Hp. reflexivity.
  - destruct (p m) eqn:Hpm.
    + injection Hfind as ->. rewrite Hid, Z.eqb_refl in Heq. discriminate.
    + apply IH, Hfind.
Qed.

Section NotificationHandlers.

Context `{Fnmatch} `{JSONCodec}.

Lemma get_notifications_miss_state (now : Z) (user : User.t) (app : App) :
  wf (redis app) ->
  _data (redis app) !! notifications_key (User.id user) = None ->
  (get_notifications now user app).2
  = mkApp (db app)
      (MockRedis.setex now (notifications_key (User.id user)) settings.CACHE_TTL
         (json_dumps (PList (map model_dump (notifications_of (db app) (User.id user)))))
         (redis app)).2.
Proof.
  intros Hwf Hd. destruct app as [d r]. simpl in *.
  unfold get_notifications, bind, on_redis, get_cached_data, try_except, get_db. simpl.
  unfold bind. rewrite get_absent by assumption. simpl.
  rewrite cache_data_run. reflexivity.
Qed.

(** X21.  Once a read has filled the cache, every read of that user
    within [CACHE_TTL] seconds answers the cached snapshot, whatever the
    database holds by then: the rows are not consulted.  (The snapshot
    is what [json.loads] makes of the stored text; an empty list is not
    served from the cache.) *)
Theorem cached_notifications_served (now later : Z) (user : User.t) (app : App)
    (snapshot : pyval) (db_later : Session) :
  wf (redis app) ->
  _data (redis app) !! notifications_key (User.id user) = None ->
  let text :=
    json_dumps (PList (map model_dump (notifications_of (db app) (User.id user)))) in
  truthy_str text = true ->
  json_loads text = Some snapshot ->
  truthy snapshot = true ->
  later <= now + seconds settings.CACHE_TTL ->
  let cached := redis (get_notifications now user app).2 in
  (get_notifications later user (mkApp db_later cached)).1 = Ok snapshot.
Proof.
  intros Hwf Hd text Htruthy Hloads Hsnap Hlater cached.
  unfold cached. rewrite get_notifications_miss_state by assumption. simpl. fold text.
  pose proof (get_after_setex now later settings.CACHE_TTL
                (notifications_key (User.id user)) text (redis app)) as Hget.
  destruct (now + seconds settings.CACHE_TTL <? later) eqn:Hlt;
    [apply Z.ltb_lt in Hlt; lia|].
  unfold get_notifications, bind, on_redis, get_cached_data, try_except. simpl.
  unfold bind.
  destruct (MockRedis.get later (notifications_key (User.id user))
              (MockRedis.setex now (notifications_key (User.id user)) settings.CACHE_TTL
                 text (redis app)).2) as [res r2].
  simpl in Hget. subst res. rewrite Htruthy, Hloads. simpl. rewrite Hsnap. reflexivity.
Qed.

(** X22.  A read that finds no cache entry answers rows of the database
    only: exactly the notifications of the current user, each once,
    newest first. *)
Theorem notifications_read_from_database (now : Z) (user : User.t) (app : App) :
  wf (redis app) ->
  _data (redis app) !! notifications_key (User.id user) = None ->
  exists rows : list Notification.t,
    (get_notifications now user app).1 = Ok (PList (map model_dump rows))
    /\ Permutation rows
         (List.filter (fun n => Notification.user_id n =? User.id user)
            (notifications (db app)))
    /\ newest_first rows.
Proof.
  intros Hwf Hd. exists (notifications_of (db app) (User.id user)).
  split; [apply get_notifications_miss; assumption|]. split.
  - apply order_by_created_at_desc_perm.
  - apply order_by_created_at_desc_sorted.
Qed.

(** X23.  [mark_notification_read] and [delete_notification] refuse a
    notification that does not exist or belongs to another user with
    404, and marking refuses one already read with 400; a refusal
    changes neither the database nor the store. *)
Theorem notification_refusals_change_nothing (now notification_id : Z)
    (user : User.t) (app : App) :
  wf (redis app) ->
  (forall e,
      (mark_notification_read now notification_id user app).1 = Raise e ->
      (mark_notification_read now notification_id user app).2 = app
      /\ (e = HTTPException HTTP_404_NOT_FOUND "Notification not found"
          \/ e = HTTPException HTTP_400_BAD_REQUEST "Notification already marked as read"))
  /\ (forall e,
        (delete_notification now notification_id user app).1 = Raise e ->
        (delete_notification now notification_id user app).2 = app
        /\ e = HTTPException HTTP_404_NOT_FOUND "Notification not found")
  /\ (forall n,
        In n (notifications (db app)) ->
        Notification.id n = notification_id ->
        Notification.user_id n <> User.id user ->
        List.NoDup (map Notification.id (notifications (db app))) ->
        (mark_notification_read now notification_id user app).1
        = Raise (HTTPException HTTP_404_NOT_FOUND "Notification not found")).
Proof.
  intros Hwf. destruct app as [d r]. simpl in Hwf.
  destruct (notifications_key_literal (User.id user)) as [Htruthy Hfree].
  destruct (clear_cache_literal now (notifications_key (User.id user)) r Hwf Htruthy Hfree)
    as [Hclear _].
  split; [|split].
  - intros e. unfold mark_notification_read.
    remember (clear_cache now (Some (notifications_key (User.id user)))) as clear eqn:Hc.
    unfold bind, get_db, set_db, on_redis, raise, ret. simpl.
    destruct (find _ (notifications d)) as [n|]; [|intros [= <-]; auto].
    destruct (Notification.is_read n); [intros [= <-]; auto|]. simpl.
    destruct (clear r) as [[u|e0] r']; simpl in *; discriminate.
  - intros e. unfold delete_notification.
    remember (clear_cache now (Some (notifications_key (User.id user)))) as clear eqn:Hc.
    unfold bind, get_db, set_db, on_redis, raise, ret. simpl.
    destruct (find _ (notifications d)) as [n|]; [|intros [= <-]; auto]. simpl.
    destruct (clear r) as [[u|e0] r']; simpl in *; discriminate.
  - intros n Hin Hid Huid Hnodup. unfold mark_notification_read, bind, get_db, raise. simpl.
    destruct (find _ (notifications d)) as [m|] eqn:Hfind; [|reflexivity].
    exfalso. apply find_some in Hfind as [Hm Hmatch].
    apply andb_true_iff in Hmatch as [Hmid Hmuid].
    apply Z.eqb_eq in Hmid. apply Z.eqb_eq in Hmuid. apply Huid.
    assert (m = n) as ->; [|exact Hmuid].
    clear - Hin Hm Hid Hmid Hnodup. simpl in *.
    induction (notifications d) as [|w rows IH]; [destruct Hin|].
    simpl in Hnodup. apply List.NoDup_cons_iff in Hnodup as [Hnotin Hnodup].
    destruct Hin as [->|Hin], Hm as [->|Hm]; [reflexivity | | | auto].
    + exfalso. apply Hnotin. rewrite Hid, <- Hmid. apply in_map, Hm.
    + exfalso. apply Hnotin. rewrite Hmid, <- Hid. apply in_map, Hin.
Qed.

(** X24.  Marking changes its answer: after [mark_notification_read] has
    succeeded for a notification, marking it again is refused with 400
    "Notification already marked as read", at any time. *)
Theorem mark_twice_refused (now later notification_id : Z) (user : User.t)
    (app app' : App) (msg : string) :
  mark_notification_read now notification_id user app = (Ok msg, app') ->
  (mark_notification_read later notification_id user app').1
  = Raise (HTTPException HTTP_400_BAD_REQUEST "Notification already marked as read").
Proof.
  intros Hmark. destruct app as [d r]. revert Hmark. unfold mark_notification_read.
  remember (clear_cache now (Some (notifications_key (User.id user)))) as clear eqn:Hc.
  remember (clear_cache later (Some (notifications_key (User.id user)))) as clear2 eqn:Hc2.
  unfold bind, get_db, set_db, on_redis, raise, ret. simpl.
  destruct (find _ (notifications d)) as [n|] eqn:Hfind; [|discriminate].
  destruct (Notification.is_read n) eqn:Hread; [discriminate|]. simpl.
  destruct (clear r) as [[u|e0] r']; [|discriminate].
  intros [= <- <-]. simpl.
  pose proof Hfind as Hsome. apply find_some in Hsome as [_ Hmatch].
  pose proof (find_commit_notification _ n
                (Notification.mk (Notification.id n) (Notification.user_id n)
                   (Notification.message n) true (Notification.created_at n))
                (notifications d) Hfind eq_refl Hmatch) as Hagain.
  simpl in Hagain. rewrite Hagain. reflexivity.
Qed.

(** X25.  A successful [delete_notification] removes the row with that
    id and no other row, leaves the users alone and drops the cache
    entry of the user, so that the next read answers the remaining rows
    of the database. *)
Theorem delete_notification_removes (now later notification_id : Z) (user : User.t)
    (app app' : App) (msg : string) :
  wf (redis app) ->
  delete_notification now notification_id user app = (Ok msg, app') ->
  (forall n, In n (notifications (db app'))
             <-> In n (notifications (db app)) /\ Notification.id n <> notification_id)
  /\ users (db app') = users (db app)
  /\ _data (redis app') !! notifications_key (User.id user) = None
  /\ (get_notifications later user app').1
     = Ok (PList (map model_dump (notifications_of (db app') (User.id user)))).
Proof.
  intros Hwf. destruct app as [d r]. simpl in Hwf.
  destruct (notifications_key_literal (User.id user)) as [Htruthy Hfree].
  destruct (clear_cache_literal now (notifications_key (User.id user)) r Hwf Htruthy Hfree)
    as [_ Hgone].
  pose proof (wf_clear_cache now (Some (notifications_key (User.id user))) r Hwf) as Hwf'.
  unfold delete_notification.
  remember (clear_cache now (Some (notifications_key (User.id user)))) as clear eqn:Hc.
  unfold bind, get_db, set_db, on_redis, raise, ret. simpl.
  destruct (find _ (notifications d)) as [n|] eqn:Hfind; [|discriminate]. simpl.
  destruct (clear r) as [[u|e0] r'] eqn:Hclear; [|discriminate].
  intros [= <- <-]. simpl in *.
  apply find_some in Hfind as [_ Hmatch]. apply andb_true_iff in Hmatch as [Hid _].
  apply Z.eqb_eq in Hid. split; [|split; [reflexivity|split; [exact Hgone|]]].
  - intros m. rewrite filter_In, negb_true_iff, Z.eqb_neq, Hid. reflexivity.
  - apply (get_notifications_miss later user (mkApp _ r')); assumption.
Qed.

End NotificationHandlers.

(** Alice reads her notifications; 200 seconds later the same read is
    made against an emptied database. *)
Lemma cached_notifications_served_witness :
  let cached := redis (get_notifications (seconds 1) Scenario.alice Scenario.app0).2 in
  (get_notifications (seconds 201) Scenario.alice (mkApp (mkSession [] []) cached)).1
  = Ok (PList [PDict [("message", PStr "Task due"); ("id", PInt 11);
                      ("is_read", PBool false); ("created_at", PStr "2000");
                      ("user_id", PInt 1)];
               PDict [("message", PStr "Task created"); ("id", PInt 10);
                      ("is_read", PBool false); ("created_at", PStr "1000");
                      ("user_id", PInt 1)]]).
Proof.
  apply (cached_notifications_served (seconds 1) (seconds 201) Scenario.alice Scenario.app0
           _ (mkSession [] [])).
  - apply wf_init.
  - reflexivity.
  - reflexivity.
  - vm_compute. reflexivity.
  - reflexivity.
  - vm_compute. discriminate.
Defined.

Lemma notifications_read_from_database_witness :
  exists rows : list Notification.t,
    (get_notifications (seconds 1) Scenario.alice Scenario.app0).1
    = Ok (PList (map model_dump rows))
    /\ Permutation rows
         (List.filter (fun n => Notification.user_id n =? 1)
            (notifications (db Scenario.app0)))
    /\ newest_first rows.
Proof.
  apply (notifications_read_from_database (seconds 1) Scenario.alice Scenario.app0).
  - apply wf_init.
  - reflexivity.
Defined.

(** Bob asks to mark, and to delete, a notification of Alice. *)
Lemma notification_refusals_change_nothing_witness :
  (mark_notification_read (seconds 1) 10 Scenario.bob Scenario.app0).1
  = Raise (HTTPException HTTP_404_NOT_FOUND "Notification not found")
  /\ (mark_notification_read (seconds 1) 10 Scenario.bob Scenario.app0).2 = Scenario.app0
  /\ (delete_notification (seconds 1) 10 Scenario.bob Scenario.app0).2 = Scenario.app0.
Proof.
  destruct (notification_refusals_change_nothing (seconds 1) 10 Scenario.bob Scenario.app0
              wf_init) as (Hmark & Hdelete & Hforeign).
  split; [|split].
  - apply (Hforeign Scenario.task_created).
    + left. reflexivity.
    + reflexivity.
    + simpl. discriminate.
    + simpl. repeat constructor; simpl; intuition discriminate.
  - apply (Hmark (HTTPException HTTP_404_NOT_FOUND "Notification not found")).
    reflexivity.
  - apply (Hdelete (HTTPException HTTP_404_NOT_FOUND "Notification not found")).
    reflexivity.
Defined.

Lemma mark_twice_refused_witness :
  let app' := (mark_notification_read (seconds 1) 10 Scenario.alice Scenario.app0).2 in
  (mark_notification_read (seconds 2) 10 Scenario.alice app').1
  = Raise (HTTPException HTTP_400_BAD_REQUEST "Notification already marked as read").
Proof.
  apply (mark_twice_refused (seconds 1) (seconds 2) 10 Scenario.alice Scenario.app0
           (mark_notification_read (seconds 1) 10 Scenario.alice Scenario.app0).2
           "Notification marked as read").
  vm_compute. reflexivity.
Defined.

Lemma delete_notification_removes_witness :
  let read := (get_notifications (seconds 1) Scenario.alice Scenario.app0).2 in
  let app' := (delete_notification (seconds 2) 10 Scenario.alice read).2 in
  (forall n, In n (notifications (db app'))
             <-> In n (notifications (db read)) /\ Notification.id n <> 10)
  /\ users (db app') = users (db read)
  /\ _data (redis app') !! notifications_key 1 = None
  /\ (get_notifications (seconds 3) Scenario.alice app').1
     = Ok (PList (map model_dump (notifications_of (db app') 1))).
Proof.
  intros read app'.
  apply (delete_notification_removes (seconds 2) (seconds 3) 10 Scenario.alice read app'
           "Notification deleted successfully").
  - apply get_notifications_state, wf_init.
  - vm_compute. reflexivity.
Defined.

(** ** Registration *)

Lemma find_app_last {A} (p : A -> bool) (l : list A) (x : A) :
  find p l = None -> find p (l ++ [x]) = if p x then Some x else None.
Proof.
  induction l as [|a l IH]; simpl; [reflexivity|].
  destruct (p a); [discriminate | exact IH].
Qed.

Section Registration.

Context `{Fnmatch} `{JSONCodec} `{JOSE} `{CryptContext}.

Variable SECRET_KEY : string.

Lemma register_ok_inv (new_id : Z) (salt username email password : string)
    (app app' : App) (user : User.t) :
  register new_id salt username email password app = (Ok user, app') ->
  find (fun u => String.eqb (User.username u) username
                 || String.eqb (User.email u) email) (users (db app)) = None
  /\ user = User.mk new_id username email (get_password_hash salt password) true None
  /\ app' = mkApp (mkSession (users (db app) ++ [user]) (notifications (db app)))
                  (redis app).
Proof.
  unfold register, bind, get_db, set_db, raise, ret.
  destruct (find _ (users (db app))) as [u|]; [discriminate|].
  simpl. intros [= <- <-]. auto.
Qed.

(** X26.  [register] refuses exactly the requests whose user name or
    e-mail address some row already has: it then answers 400 and changes
    nothing.  Every other request is answered with the new row, which is
    active and is the only change to the state. *)
Theorem register_refuses_taken_names (new_id : Z)
    (salt username email password : string) (app : App) :
  let taken := exists u, In u (users (db app))
                         /\ (User.username u = username \/ User.email u = email) in
  let user := User.mk new_id username email (get_password_hash salt password) true None in
  (taken <->
   register new_id salt username email password app
   = (Raise (HTTPException HTTP_400_BAD_REQUEST "Username or email already registered"),
      app))
  /\ (~ taken <->
      register new_id salt username email password app
      = (Ok user,
         mkApp (mkSession (users (db app) ++ [user]) (notifications (db app)))
               (redis app))).
Proof.
  intros taken user. subst taken user.
  unfold register, bind, get_db, set_db, raise, ret.
  destruct (find _ (users (db app))) as [u|] eqn:Hfind; simpl.
  - apply find_some in Hfind as [Hin Hp]. apply orb_true_iff in Hp.
    rewrite !String.eqb_eq in Hp.
    split; split; try discriminate; eauto. intros Hnot. destruct Hnot. eauto.
  - assert (Hnone : ~ (exists u, In u (users (db app))
                                 /\ (User.username u = username \/ User.email u = email))).
    { intros (u & Hin & Hp). pose proof (find_none _ _ Hfind u Hin) as Hq.
      simpl in Hq. apply orb_false_iff in Hq as [Hn He].
      apply String.eqb_neq in Hn, He. tauto. }
    split; split; try discriminate; tauto.
Qed.

(** X27.  [register] never creates a second account under a user name or
    an e-mail address: if the user names are pairwise different before
    the request they are afterwards, and so for the e-mail addresses,
    whatever the request and its answer. *)
Theorem register_keeps_names_unique (new_id : Z)
    (salt username email password : string) (app : App) :
  List.NoDup (map User.username (users (db app))) ->
  List.NoDup (map User.email (users (db app))) ->
  let app' := (register new_id salt username email password app).2 in
  List.NoDup (map User.username (users (db app')))
  /\ List.NoDup (map User.email (users (db app'))).
Proof.
  intros Hnames Hemails. unfold register, bind, get_db, set_db, raise, ret.
  destruct (find _ (users (db app))) as [u|] eqn:Hfind; simpl; [auto|].
  assert (Hfresh : forall u, In u (users (db app)) ->
                             User.username u <> username /\ User.email u <> email).
  { intros u Hin. pose proof (find_none _ _ Hfind u Hin) as Hq.
    simpl in Hq. apply orb_false_iff in Hq as [Hn He].
    apply String.eqb_neq in Hn, He. auto. }
  rewrite !map_app. simpl. split.
  - apply List.NoDup_app; [exact Hnames | repeat constructor; simpl; tauto |].
    intros a Ha [<-|[]]. apply in_map_iff in Ha as (u & Hu & Hin).
    destruct (Hfresh u Hin) as [Hn _]. auto.
  - apply List.NoDup_app; [exact Hemails | repeat constructor; simpl; tauto |].
    intros a Ha [<-|[]]. apply in_map_iff in Ha as (u & Hu & Hin).
    destruct (Hfresh u Hin) as [_ He]. auto.
Qed.

(** X28.  Registration and login fit together: with a password library
    whose [verify] accepts the hash it made of that password, a user who
    has just registered and whose name is not locked out logs in with
    the registered name and password and receives tokens for that name. *)
Theorem register_then_login (new_id now : Z) (salt username email password : string)
    (app app' : App) (user : User.t) :
  verify_password password (get_password_hash salt password) = true ->
  register new_id salt username email password app = (Ok user, app') ->
  (check_login_attempts now username (redis app)).1 = Ok true ->
  (login SECRET_KEY now username password app').1
  = Ok (bearer_pair SECRET_KEY now username).
Proof.
  intros Hverify Hreg Hcheck.
  apply register_ok_inv in Hreg as (Hfind & -> & ->).
  assert (Huser : user_by_username
                    (mkSession
                       (users (db app)
                        ++ [User.mk new_id username email
                              (get_password_hash salt password) true None])
                       (notifications (db app))) username
                  = Some (User.mk new_id username email
                            (get_password_hash salt password) true None)).
  { unfold user_by_username. simpl. rewrite find_app_last.
    - simpl. rewrite String.eqb_refl. reflexivity.
    - destruct (find (fun u => String.eqb (User.username u) username) (users (db app)))
        as [u|] eqn:Hu; [|reflexivity].
      apply find_some in Hu as [Hin Hname].
      pose proof (find_none _ _ Hfind u Hin) as Hq. simpl in Hq.
      rewrite Hname in Hq. discriminate. }
  unfold login, bind, on_redis, get_db, set_db, raise, ret. simpl.
  destruct (check_login_attempts now username (redis app)) as [res r1].
  simpl in Hcheck. subst res. simpl.
  unfold user_by_username in Huser. simpl in Huser.
  unfold user_by_username. simpl. rewrite Huser. simpl.
  rewrite Hverify. simpl.
  destruct (reset_login_attempts username r1) as [[u|e] r2] eqn:Hreset; [reflexivity|].
  unfold reset_login_attempts, bind, ret in Hreset.
  destruct (MockRedis.delete (login_attempts_key username) r1) as [[b|e'] r3] eqn:Hdel;
    [discriminate|].
  unfold MockRedis.delete in Hdel.
  destruct (_data r1 !! login_attempts_key username); discriminate.
Qed.

End Registration.

Lemma register_keeps_names_unique_witness :
  let app' := (register 3 "s3" "alice" "alice@corp.example" "Secr3t!pw" Scenario.app0).2 in
  List.NoDup (map User.username (users (db app')))
  /\ List.NoDup (map User.email (users (db app'))).
Proof.
  apply (register_keeps_names_unique 3 "s3" "alice" "alice@corp.example" "Secr3t!pw"
           Scenario.app0).
  - simpl. repeat constructor; simpl; intuition discriminate.
  - simpl. repeat constructor; simpl; intuition discriminate.
Defined.

(** Carol registers and logs in a second later. *)
Lemma register_then_login_witness :
  let app' := (register 3 "s3" "carol" "carol@example.com" "Secr3t!pw" Scenario.app0).2 in
  (login Scenario.secret (seconds 1) "carol" "Secr3t!pw" app').1
  = Ok (bearer_pair Scenario.secret (seconds 1) "carol").
Proof.
  intros app'.
  apply (register_then_login Scenario.secret 3 (seconds 1) "s3" "carol" "carol@example.com"
           "Secr3t!pw" Scenario.app0 app'
           (User.mk 3 "carol" "carol@example.com"
              (get_password_hash "s3" "Secr3t!pw") true None)).
  - vm_compute. reflexivity.
  - vm_compute. reflexivity.
  - vm_compute. reflexivity.
Defined.

(** ** The user-name validator *)

Lemma before_final_newline_spec (v : string) :
  v = before_final_newline v
  \/ v = before_final_newline v ++ String newline EmptyString.
Proof.
  induction v as [|c v IH]; [left; reflexivity|].
  destruct v as [|c' v'].
  - simpl. destruct (Ascii.eqb c newline) eqn:Hc.
    + apply Ascii.eqb_eq in Hc. subst c. right. reflexivity.
    + left. reflexivity.
  - change (before_final_newline (String c (String c' v')))
      with (String c (before_final_newline (String c' v'))).
    destruct IH as [IH|IH].
    + left. rewrite <- IH. reflexivity.
    + right. rewrite IH at 1. reflexivity.
Qed.

Lemma before_final_newline_clean (body : string) :
  all_chars username_char body = true -> before_final_newline body = body.
Proof.
  induction body as [|c body IH]; [reflexivity|].
  simpl. intros Hall. apply andb_true_iff in Hall as [Hc Hall].
  destruct body as [|c' body'].
  - destruct (Ascii.eqb c newline) eqn:Hn; [|reflexivity].
    apply Ascii.eqb_eq in Hn. subst c. discriminate.
  - rewrite (IH Hall). reflexivity.
Qed.

Lemma before_final_newline_app (body : string) :
  body <> EmptyString ->
  all_chars username_char body = true ->
  before_final_newline (body ++ String newline EmptyString) = body.
Proof.
  induction body as [|c body IH]; [congruence|].
  intros _ Hall. simpl in Hall. apply andb_true_iff in Hall as [Hc Hall].
  destruct body as [|c' body'].
  - reflexivity.
  - change (before_final_newline (String c (String c' body') ++ String newline EmptyString))
      with (String c (before_final_newline
                        (String c' body' ++ String newline EmptyString))).
    rewrite IH; [reflexivity | discriminate | exact Hall].
Qed.

(** X29.  [validate_username] accepts a name exactly when it is a
    non-empty run of ASCII letters, digits, underscores and hyphens, or
    such a run followed by one newline; every other name raises
    [ValueError].  An accepted name is returned as it was given, the
    newline included. *)
Theorem validate_username_accepts (v : string) :
  let well_formed :=
    exists body : string,
      body <> EmptyString
      /\ all_chars username_char body = true
      /\ (v = body \/ v = body ++ String newline EmptyString) in
  (well_formed <-> validate_username v = Ok v)
  /\ (~ well_formed <-> validate_username v = Raise ValueError).
Proof.
  intros well_formed.
  assert (Hiff : well_formed <-> validate_username v = Ok v).
  { subst well_formed. unfold validate_username. split.
    - intros (body & Hne & Hall & [->| ->]).
      + rewrite before_final_newline_clean by exact Hall. rewrite Hall.
        destruct body; [congruence | reflexivity].
      + rewrite before_final_newline_app by assumption. rewrite Hall.
        destruct body; [congruence | reflexivity].
    - destruct (truthy_str (before_final_newline v)
                && all_chars username_char (before_final_newline v)) eqn:Hok;
        [|discriminate].
      intros _. apply andb_true_iff in Hok as [Htruthy Hall].
      exists (before_final_newline v). split; [|split].
      + intros Hempty. rewrite Hempty in Htruthy. discriminate.
      + exact Hall.
      + apply before_final_newline_spec. }
  split; [exact Hiff|]. rewrite Hiff. unfold validate_username.
  destruct (truthy_str (before_final_newline v)
            && all_chars username_char (before_final_newline v));
    split; congruence.
Qed.

(** ** What the store answers in every state the service reaches *)

(** X30.  From the empty store of a fresh process and after any sequence
    of requests, whatever they were answered, [get] and [keys] do not
    raise: [get] answers the value a reader is entitled to at that time
    and [keys] answers a list. *)
Theorem store_reads_never_raise `{Fnmatch} `{JSONCodec} `{JOSE} `{CryptContext}
    (SECRET_KEY : string) (requests : list request) (db0 : Session)
    (now : Z) (key pattern : string) :
  let r := redis (serve SECRET_KEY requests (mkApp db0 MockRedis.init)) in
  (MockRedis.get now key r).1 = Ok (live now r key)
  /\ (exists found : list string, (MockRedis.keys now pattern r).1 = Ok found)
  /\ (forall k : string, _data r !! k = None -> _expires r !! k = None).
Proof.
  intros r.
  assert (Hwf : wf r) by (apply wf_serve, wf_init).
  split; [apply get_value, Hwf|split].
  - rewrite (keys_run now pattern r Hwf). simpl. eauto.
  - intros k. apply wf_absent, Hwf.
Qed.
